(** * Network-isolation reconciliation steps of snap-openstack (sunbeam)

    A shallow embedding of

      - [sunbeam/steps/network_isolation.py]  ([import_network_isolation_answers]),
      - [sunbeam/steps/juju_spaces.py]        ([EnsureJujuSpacesStep]),
      - [sunbeam/steps/k8s_isolation.py]      ([EnsureMetalLBIsolationStep]),

    and the properties their specification states about them.

    Python values are a small dynamically typed universe ([pyval]); every
    call that leaves the process (subprocess, kube client, juju helper) is
    an operation of an abstract [Backend] over a world [W], and each such
    call is written to a transcript, so that "no call is made" and "the
    call is attempted" are statements about that transcript. *)

From Stdlib Require Import Ascii String Floats.SpecFloat.
From stdpp Require Import base option list strings gmap.

Open Scope string_scope.
Open Scope list_scope.
Set Warnings "-register-all".

(** ** Python values *)

(** The values that answers, JSON documents and command arguments are made
    of.  A [dict] keeps its insertion order, which is the order [items()]
    iterates in; its keys are strings, as in every JSON object. *)
Inductive pyval : Type :=
| PNone
| PBool (b : bool)
| PInt (z : Z)
| PFloat (f : spec_float)
| PStr (s : string)
| PList (l : list pyval)
| PDict (d : list (string * pyval)).

(** Python's truth value: [None], [False], zero, and the empty string,
    list and dict are false. *)
Definition truthy (v : pyval) : bool :=
  match v with
  | PNone => false
  | PBool b => b
  | PInt z => negb (Z.eqb z 0)
  | PFloat (S754_zero _) => false
  | PFloat _ => true
  | PStr s => negb (String.eqb s "")
  | PList l => match l with [] => false | _ => true end
  | PDict d => match d with [] => false | _ => true end
  end.

(** [a or b] *)
Definition py_or (a b : pyval) : pyval := if truthy a then a else b.

Definition type_name (v : pyval) : string :=
  match v with
  | PNone => "NoneType"
  | PBool _ => "bool"
  | PInt _ => "int"
  | PFloat _ => "float"
  | PStr _ => "str"
  | PList _ => "list"
  | PDict _ => "dict"
  end.

(** [isinstance(v, dict)] *)
Definition is_dict (v : pyval) : bool :=
  match v with PDict _ => true | _ => false end.

(** ** Exceptions *)

(** The exception classes the steps tell apart.  [KubeClientError] and
    [K8SError] are sunbeam's; everything else the code only ever meets
    under [except Exception] and is classed [PyException]. *)
Inductive exn_class : Type :=
| KubeClientError
| K8SError
| PyException.

#[global] Instance exn_class_eq_dec : EqDecision exn_class.
Proof. solve_decision. Defined.

(** An exception: its class and [str(e)]. *)
Record exn : Type := Exn { exn_cls : exn_class; exn_str : string }.

(** [AttributeError] for a method the value's type does not have. *)
Definition attribute_error (v : pyval) (attr : string) : exn :=
  Exn PyException ("'" +:+ type_name v +:+ "' object has no attribute '" +:+ attr +:+ "'").

Definition type_error (msg : string) : exn := Exn PyException msg.

(** Lookup in a dict, by key. *)
Fixpoint dict_lookup (d : list (string * pyval)) (k : string) : option pyval :=
  match d with
  | [] => None
  | (k', v) :: rest => if String.eqb k' k then Some v else dict_lookup rest k
  end.

(** [v.get(k, dflt)]: only a dict has [get]. *)
Definition py_get_default (v : pyval) (k : string) (dflt : pyval) : exn + pyval :=
  match v with
  | PDict d => inr (default dflt (dict_lookup d k))
  | _ => inl (attribute_error v "get")
  end.

(** [v.get(k)] *)
Definition py_get (v : pyval) (k : string) : exn + pyval :=
  py_get_default v k PNone.

(** [v.items()] *)
Definition py_items (v : pyval) : exn + list (string * pyval) :=
  match v with
  | PDict d => inr d
  | _ => inl (attribute_error v "items")
  end.

(** The one-character strings of a string, as iteration yields them. *)
Fixpoint chars (s : string) : list pyval :=
  match s with
  | EmptyString => []
  | String c rest => PStr (String c EmptyString) :: chars rest
  end.

(** What iterating over a value yields: the elements of a list, the keys of
    a dict, the characters of a string; nothing else is iterable. *)
Definition py_iter (v : pyval) : option (list pyval) :=
  match v with
  | PList l => Some l
  | PDict d => Some (map (fun kv => PStr (fst kv)) d)
  | PStr s => Some (chars s)
  | _ => None
  end.

(** [for s in v] *)
Definition py_iterate (v : pyval) : exn + list pyval :=
  match py_iter v with
  | Some l => inr l
  | None => inl (type_error ("'" +:+ type_name v +:+ "' object is not iterable"))
  end.

(** The positional arguments a starred value [*v] unpacks to in a call. *)
Definition py_unpack (v : pyval) : exn + list pyval :=
  match py_iter v with
  | Some l => inr l
  | None => inl (type_error ("Value after * must be an iterable, not " +:+ type_name v))
  end.

(** [v[k]] for a string key [k]. *)
Definition py_getitem (v : pyval) (k : string) : exn + pyval :=
  match v with
  | PDict d =>
      match dict_lookup d k with
      | Some x => inr x
      | None => inl (Exn PyException ("'" +:+ k +:+ "'"))
      end
  | PList _ => inl (type_error "list indices must be integers or slices, not str")
  | PStr _ => inl (type_error "string indices must be integers, not 'str'")
  | _ => inl (type_error ("'" +:+ type_name v +:+ "' object is not subscriptable"))
  end.

(** Only hashable values enter a set. *)
Definition py_hashable (v : pyval) : exn + pyval :=
  match v with
  | PList _ | PDict _ => inl (type_error ("unhashable type: '" +:+ type_name v +:+ "'"))
  | _ => inr v
  end.

(** [name in s] for a string [name] and a set [s] of hashable values: a
    string equals no value of another type. *)
Definition py_str_in (name : string) (s : list pyval) : bool :=
  existsb (fun v => match v with PStr n => String.eqb n name | _ => false end) s.

(** ** Results of a step *)

Inductive ResultType : Type := COMPLETED | FAILED | SKIPPED.

#[global] Instance ResultType_eq_dec : EqDecision ResultType.
Proof. solve_decision. Defined.

(** [Result(result_type, message)]; [message] is [None] when the
    constructor is called with the result type alone. *)
Record Result : Type := mkResult { result_type : ResultType; message : option string }.

(** ** The world outside the process *)

(** The text a process or a file yields.  The code's only use of such a
    text is [json.loads], so a text is represented by what [json.loads]
    makes of it: a document, or the decoding error it raises. *)
Record json_text : Type := JsonText { json_parse : exn + pyval }.

(** [json.loads(raw)] *)
Definition json_loads (raw : json_text) : exn + pyval := json_parse raw.

(** A lightkube generic resource class, as
    [K8SHelper.get_lightkube_loadbalancer_resource()] and
    [K8SHelper.get_lightkube_l2_advertisement_resource()] return them. *)
Inductive res_class : Type := IPAddressPool | L2Advertisement.

#[global] Instance res_class_eq_dec : EqDecision res_class.
Proof. solve_decision. Defined.

(** An instance [res(metadata=..., spec=...)] of a resource class. *)
Record resource : Type :=
  Resource { res_cls : res_class; res_metadata : pyval; res_spec : pyval }.

(** The handle [get_kube_client] returns. *)
Inductive kube_client : Type := KubeClient.

(** An argument of [JujuHelper.cli]: a literal word, or the assignment
    [f'{key}={json.dumps(value)}'], kept as the key and the document that
    is serialised. *)
Inductive cli_arg : Type :=
| Word (s : string)
| Assign (key : string) (value : pyval).

(** The calls that leave the process. *)
Inductive call : Type :=
| SubprocessRun (cmd : list pyval)
| GetKubeClient
| KubeCreate (body : resource)
| KubeReplace (res : res_class) (name namespace : string) (body : resource)
| JujuHelperLoad
| GetApplicationNames (model : string)
| JujuCli (args : list cli_arg) (json_format : bool).

(** What came back from a call. *)
Inductive response : Type :=
| Done
| Output (out : json_text)
| Names (names : list string)
| Raised (e : exn).

(** One line of the transcript of an invocation. *)
Record event : Type := Ev { ev_call : call; ev_resp : response }.

(** The collaborators of the steps, over a world [W] that each call may
    change.  A call either raises or returns.
      - [subprocess_run cmd] is [subprocess.run(cmd, text=True,
        stdout=PIPE, stderr=STDOUT, check=True).stdout];
      - [get_kube_client] is [sunbeam.steps.k8s.get_kube_client(client)];
      - [kube_create], [kube_replace] are the kube client's [create] and
        [replace];
      - [juju_helper_load] is [JujuHelper(JujuController.load(client))];
      - [get_application_names], [juju_cli] are the helper's methods. *)
Record Backend (W : Type) : Type := {
  subprocess_run : list pyval -> W -> (exn + json_text) * W;
  get_kube_client : W -> (exn + kube_client) * W;
  kube_create : resource -> W -> (exn + unit) * W;
  kube_replace : res_class -> string -> string -> resource -> W -> (exn + unit) * W;
  juju_helper_load : W -> (exn + unit) * W;
  get_application_names : string -> W -> (exn + list string) * W;
  juju_cli : list cli_arg -> bool -> W -> (exn + unit) * W;
}.

Arguments subprocess_run {W} _ _ _.
Arguments get_kube_client {W} _ _.
Arguments kube_create {W} _ _ _.
Arguments kube_replace {W} _ _ _ _ _ _.
Arguments juju_helper_load {W} _ _.
Arguments get_application_names {W} _ _ _.
Arguments juju_cli {W} _ _ _ _.

(** ** Computations that may raise, change the world and leave a transcript *)

Module Py.

(** A computation from a world: it raises ([inl]) or returns ([inr]),
    leaves a world, and has made the calls of its transcript. *)
Definition M (W A : Type) : Type := W -> (exn + A) * W * list event.

Definition ret {W A} (a : A) : M W A := fun w => (inr a, w, []).

Definition raise {W A} (e : exn) : M W A := fun w => (inl e, w, []).

Definition bind {W A B} (m : M W A) (f : A -> M W B) : M W B :=
  fun w =>
    match m w with
    | (inl e, w1, t1) => (inl e, w1, t1)
    | (inr a, w1, t1) =>
        match f a w1 with
        | (r, w2, t2) => (r, w2, t1 ++ t2)
        end
    end.

(** [try: m  except Exception as e: h e] *)
Definition try_except {W A} (m : M W A) (h : exn -> M W A) : M W A :=
  fun w =>
    match m w with
    | (inl e, w1, t1) =>
        match h e w1 with
        | (r, w2, t2) => (r, w2, t1 ++ t2)
        end
    | (inr a, w1, t1) => (inr a, w1, t1)
    end.

(** A pure expression that may raise. *)
Definition lift {W A} (r : exn + A) : M W A := fun w => (r, w, []).

(** A call to the backend: its outcome is written to the transcript. *)
Definition perform {W A} (c : call) (op : W -> (exn + A) * W)
    (log : A -> response) : M W A :=
  fun w =>
    match op w with
    | (inl e, w1) => (inl e, w1, [Ev c (Raised e)])
    | (inr a, w1) => (inr a, w1, [Ev c (log a)])
    end.

End Py.

Notation "x <~ m ;; k" := (Py.bind m (fun x => k))
  (at level 100, m at next level, right associativity).
Notation "m ;;; k" := (Py.bind m (fun _ => k))
  (at level 100, right associativity).

(** The same sequencing for pure expressions that may raise. *)
Definition sum_bind {A B} (r : exn + A) (f : A -> exn + B) : exn + B :=
  match r with
  | inl e => inl e
  | inr a => f a
  end.

Notation "x <?- r ;; k" := (sum_bind r (fun x => k))
  (at level 100, r at next level, right associativity).

(** ** The answer store *)

(** Modelled from the spec: [sunbeam.core.questions] is not among the
    sources.  "Answer store: load(key) -> mapping (missing key yields empty
    mapping); save(key, mapping) -> void."  The store maps the fixed
    string identifiers to free-form values. *)
Definition load_answers (client : gmap string pyval) (key : string) : pyval :=
  default (PDict []) (client !! key).

(** Modelled from the spec: see [load_answers]. *)
Definition save_answers (client : gmap string pyval) (key : string) (v : pyval)
    : gmap string pyval :=
  <[key := v]> client.

(** ** [sunbeam/steps/juju_spaces.py] *)

Module EnsureJujuSpacesStep.

Definition NETWORK_ISOLATION_KEY : string := "network_isolation".

(** The names [{s["name"] for s in ...}] collects, element by element. *)
Fixpoint space_names (items : list pyval) : exn + list pyval :=
  match items with
  | [] => inr []
  | s :: rest =>
      n <?- py_getitem s "name" ;;
      h <?- py_hashable n ;;
      names <?- space_names rest ;;
      inr (h :: names)
  end.

(** [(spec or {}).get("subnets") or []] *)
Definition subnets_of (spec : pyval) : exn + pyval :=
  v <?- py_get (py_or spec (PDict [])) "subnets" ;;
  inr (py_or v (PList [])).

Section Step.
Context {W : Type} (B : Backend W).
(** [self.client], seen through the answers it holds, and [self.model]. *)
Variable client : gmap string pyval.
Variable model : string.

Definition _answers : pyval :=
  py_or (load_answers client NETWORK_ISOLATION_KEY) (PDict []).

(** [ni = self._answers().get("network_isolation") or {}] *)
Definition network_isolation : exn + pyval :=
  v <?- py_get _answers "network_isolation" ;;
  inr (py_or v (PDict [])).

Definition is_skip : Py.M W Result :=
  ni <~ Py.lift network_isolation ;;
  enable <~ Py.lift (py_get ni "enable_isolation") ;;
  if negb (truthy enable) then
    Py.ret (mkResult SKIPPED (Some "Network isolation disabled"))
  else
    spaces <~ Py.lift (py_get ni "spaces") ;;
    if negb (truthy (py_or spaces (PDict []))) then
      Py.ret (mkResult SKIPPED (Some "No spaces specified"))
    else
      Py.ret (mkResult COMPLETED None).

Definition juju_cmd (args : list pyval) : list pyval :=
  PStr "juju" :: args ++ [PStr "--model"; PStr model].

Definition _juju (args : list pyval) : Py.M W json_text :=
  Py.perform (SubprocessRun (juju_cmd args))
             (subprocess_run B (juju_cmd args)) Output.

(** The names of the spaces the model has ([existing]). *)
Definition existing_spaces : Py.M W (list pyval) :=
  raw <~ _juju [PStr "spaces"; PStr "--format"; PStr "json"] ;;
  Py.lift (doc <?- json_loads raw ;;
           spaces <?- py_get_default doc "spaces" (PList []) ;;
           items <?- py_iterate spaces ;;
           space_names items).

(** [self._juju(verb, name, *subnets)] *)
Definition juju_space (verb name : string) (subnets : pyval) : Py.M W json_text :=
  args <~ Py.lift (py_unpack subnets) ;;
  _juju (PStr verb :: PStr name :: args).

Definition failed_to_ensure (name : string) (e : exn) : Result :=
  mkResult FAILED (Some ("Failed to ensure space " +:+ name +:+ ": " +:+ exn_str e)).

(** One round of the loop over [spaces.items()]: [Some r] when the
    round returns [r] from [run], [None] when the loop goes on. *)
Definition ensure_space (existing : list pyval) (name : string) (spec : pyval)
    : Py.M W (option Result) :=
  subnets <~ Py.lift (subnets_of spec) ;;
  if negb (truthy subnets) then Py.ret None
  else
    Py.try_except
      (if py_str_in name existing then
         Py.try_except
           (juju_space "set-space-subnets" name subnets ;;; Py.ret tt)
           (fun _ => Py.ret tt) ;;;
         Py.ret None
       else
         juju_space "add-space" name subnets ;;; Py.ret None)
      (fun e => Py.ret (Some (failed_to_ensure name e))).

Fixpoint ensure_spaces (existing : list pyval) (spaces : list (string * pyval))
    : Py.M W (option Result) :=
  match spaces with
  | [] => Py.ret None
  | (name, spec) :: rest =>
      r <~ ensure_space existing name spec ;;
      match r with
      | Some res => Py.ret (Some res)
      | None => ensure_spaces existing rest
      end
  end.

Definition default_space_cmd : list pyval :=
  [PStr "juju"; PStr "model-config"; PStr "--model"; PStr model;
   PStr "default-space=management"].

(** [default-space] for the model: tried, and its failure dropped. *)
Definition set_default_space : Py.M W unit :=
  Py.try_except
    (Py.perform (SubprocessRun default_space_cmd)
                (subprocess_run B default_space_cmd) Output ;;;
     Py.ret tt)
    (fun _ => Py.ret tt).

Definition unable_to_read (e : exn) : Result :=
  mkResult FAILED (Some ("Unable to read model spaces: " +:+ exn_str e)).

(** What follows the query of the live spaces. *)
Definition reconcile (spaces : pyval) (existing : list pyval) : Py.M W Result :=
  items <~ Py.lift (py_items spaces) ;;
  r <~ ensure_spaces existing items ;;
  match r with
  | Some res => Py.ret res
  | None => set_default_space ;;; Py.ret (mkResult COMPLETED None)
  end.

Definition run : Py.M W Result :=
  ni <~ Py.lift network_isolation ;;
  spaces <~ Py.lift (v <?- py_get ni "spaces" ;; inr (py_or v (PDict []))) ;;
  q <~ Py.try_except
         (existing <~ existing_spaces ;; Py.ret (inr existing))
         (fun e => Py.ret (inl (unable_to_read e))) ;;
  match q with
  | inl res => Py.ret res
  | inr existing => reconcile spaces existing
  end.

End Step.

End EnsureJujuSpacesStep.

(** ** [sunbeam/steps/k8s_isolation.py] *)

Module EnsureMetalLBIsolationStep.

Definition K8S_ADDONS_CONFIG_KEY : string := "TerraformVarsK8SAddons".
Definition NETWORK_ISOLATION_CONFIG_KEY : string := "network_isolation".
Definition PUBLIC_POOL_NAME : string := "sunbeam-public-pool".
Definition INTERNAL_POOL_NAME : string := "sunbeam-internal-pool".

(** The table of Traefik applications, in the order it is written. *)
Definition TRAEFIK_APPS : list (string * string) :=
  [("traefik", INTERNAL_POOL_NAME);
   ("traefik-public", PUBLIC_POOL_NAME);
   ("traefik-rgw", PUBLIC_POOL_NAME)].

(** *** [str.split(",")] and [str.strip()] *)

(** Strings are ASCII text; these are the ASCII characters that
    [str.isspace] holds of. *)
Definition is_space (c : ascii) : bool :=
  let n := nat_of_ascii c in
  ((9 <=? n)%nat && (n <=? 13)%nat) || ((28 <=? n)%nat && (n <=? 32)%nat).

Fixpoint py_split_comma (s : string) : list string :=
  match s with
  | EmptyString => [""]
  | String c rest =>
      if Ascii.eqb c "," then "" :: py_split_comma rest
      else match py_split_comma rest with
           | [] => [String c ""]
           | h :: t => String c h :: t
           end
  end.

Fixpoint lstrip (s : string) : string :=
  match s with
  | EmptyString => ""
  | String c rest => if is_space c then lstrip rest else s
  end.

Fixpoint rstrip (s : string) : string :=
  match s with
  | EmptyString => ""
  | String c rest =>
      match rstrip rest with
      | EmptyString => if is_space c then "" else String c ""
      | r => String c r
      end
  end.

Definition py_strip (s : string) : string := rstrip (lstrip s).

(** [[r.strip() for r in cidrs_or_ranges.split(",") if r.strip()]] *)
Definition addresses (cidrs_or_ranges : pyval) : exn + list pyval :=
  match cidrs_or_ranges with
  | PStr s =>
      inr (map (fun r => PStr (py_strip r))
               (filter (fun r => truthy (PStr (py_strip r))) (py_split_comma s)))
  | v => inl (attribute_error v "split")
  end.

Section Step.
Context {W : Type} (B : Backend W).
(** [K8SHelper.get_loadbalancer_namespace()] and
    [K8SHelper.get_loadbalancer_address_pool_annotation()]:
    [sunbeam.core.k8s] is not among the sources. *)
Variable METALLB_NS : string.
Variable address_pool_annotation : string.
(** [self.client], seen through the answers it holds, and [self.model]. *)
Variable client : gmap string pyval.
Variable model : string.

(** [enable_iso] *)
Definition enable_iso : exn + bool :=
  let ni := load_answers client NETWORK_ISOLATION_CONFIG_KEY in
  if is_dict ni then
    v <?- py_get ni "enable_isolation" ;; inr (truthy v)
  else inr false.

(** [(public_range, internal_range)] *)
Definition _ranges_from_answers : exn + pyval * pyval :=
  addons <?- py_get_default (load_answers client K8S_ADDONS_CONFIG_KEY)
                            "k8s-addons" (PDict []) ;;
  pub <?- py_get addons "lb_public_pool" ;;
  internal <?- py_get addons "lb_internal_pool" ;;
  single <?- py_get addons "loadbalancer" ;;
  let pub := if negb (truthy pub) && truthy single then single else pub in
  let internal :=
    if negb (truthy internal) && truthy single then single else internal in
  enabled <?- enable_iso ;;
  if negb enabled then inr (PNone, PNone) else inr (pub, internal).

Definition metadata (name : string) : pyval :=
  PDict [("name", PStr name); ("namespace", PStr METALLB_NS)].

(** [self.kube.create(body)]; [self.kube] is [None] until [is_skip]
    has obtained the client. *)
Definition create (kube : option kube_client) (body : resource) : Py.M W unit :=
  match kube with
  | None => Py.raise (attribute_error PNone "create")
  | Some _ => Py.perform (KubeCreate body) (kube_create B body) (fun _ => Done)
  end.

(** [self.kube.replace(res, name=name, namespace=METALLB_NS, body=body)] *)
Definition replace (kube : option kube_client) (res : res_class) (name : string)
    (body : resource) : Py.M W unit :=
  match kube with
  | None => Py.raise (attribute_error PNone "replace")
  | Some _ =>
      Py.perform (KubeReplace res name METALLB_NS body)
                 (kube_replace B res name METALLB_NS body) (fun _ => Done)
  end.

Definition failed_to_apply (what name : string) (re : exn) : exn :=
  Exn K8SError ("Failed to apply " +:+ what +:+ " " +:+ name +:+ ": " +:+ exn_str re).

(** Create, and replace when the creation raises. *)
Definition create_or_replace (kube : option kube_client) (what : string)
    (res : res_class) (name : string) (body : resource) : Py.M W unit :=
  Py.try_except
    (create kube body)
    (fun _ =>
       Py.try_except
         (replace kube res name body)
         (fun re => Py.raise (failed_to_apply what name re))).

Definition pool_body (name : string) (addrs : list pyval) : resource :=
  Resource IPAddressPool (metadata name) (PDict [("addresses", PList addrs)]).

Definition _ensure_pool (kube : option kube_client) (name : string)
    (cidrs_or_ranges : pyval) : Py.M W unit :=
  addrs <~ Py.lift (addresses cidrs_or_ranges) ;;
  create_or_replace kube "IPAddressPool" IPAddressPool name (pool_body name addrs).

Definition l2adv_body (name : string) (pools : list string) : resource :=
  Resource L2Advertisement (metadata name)
           (PDict [("ipAddressPools", PList (map PStr pools))]).

Definition _ensure_l2adv (kube : option kube_client) (name : string)
    (pools : list string) : Py.M W unit :=
  create_or_replace kube "L2Advertisement" L2Advertisement name (l2adv_body name pools).

(** [j.cli("config", app,
           f'kubernetes-service-annotations={json.dumps(ann)}',
           json_format=False)] *)
Definition annotation_args (app pool : string) : list cli_arg :=
  [Word "config"; Word app;
   Assign "kubernetes-service-annotations"
          (PDict [(address_pool_annotation, PStr pool)])].

Definition annotate_app (app pool : string) : Py.M W unit :=
  Py.perform (JujuCli (annotation_args app pool) false)
             (juju_cli B (annotation_args app pool) false) (fun _ => Done).

(** The loop over [TRAEFIK_APPS.items()]. *)
Fixpoint annotate_apps (existing : gset string) (apps : list (string * string))
    : Py.M W unit :=
  match apps with
  | [] => Py.ret tt
  | (app, pool) :: rest =>
      (if bool_decide (app ∉ existing) then Py.ret tt
       else annotate_app app pool) ;;;
      annotate_apps existing rest
  end.

Definition _annotate_traefik_services_via_juju : Py.M W unit :=
  Py.perform JujuHelperLoad (juju_helper_load B) (fun _ => Done) ;;;
  names <~ Py.perform (GetApplicationNames model)
                      (get_application_names B model) Names ;;
  annotate_apps (list_to_set names) TRAEFIK_APPS.

(** [is_skip] assigns [self.kube]; it returns the field with its
    result.  An exception other than [KubeClientError] is not caught. *)
Definition is_skip (kube : option kube_client)
    : Py.M W (option kube_client * Result) :=
  fun w =>
    match Py.perform GetKubeClient (get_kube_client B) (fun _ => Done) w with
    | (inl e, w1, t1) =>
        if decide (exn_cls e = KubeClientError) then
          (inr (kube, mkResult FAILED (Some (exn_str e))), w1, t1)
        else (inl e, w1, t1)
    | (inr k, w1, t1) =>
        match _ranges_from_answers with
        | inl e => (inl e, w1, t1)
        | inr (public_range, internal_range) =>
            if negb (truthy public_range) && negb (truthy internal_range) then
              (inr (Some k, mkResult SKIPPED None), w1, t1)
            else (inr (Some k, mkResult COMPLETED None), w1, t1)
        end
    end.

(** The body of the [try] of [run]. *)
Definition apply_pools (kube : option kube_client) : Py.M W unit :=
  ranges <~ Py.lift _ranges_from_answers ;;
  (if truthy (fst ranges) then
     _ensure_pool kube PUBLIC_POOL_NAME (fst ranges) ;;;
     _ensure_l2adv kube "sunbeam-public-adv" [PUBLIC_POOL_NAME]
   else Py.ret tt) ;;;
  (if truthy (snd ranges) then
     _ensure_pool kube INTERNAL_POOL_NAME (snd ranges) ;;;
     _ensure_l2adv kube "sunbeam-internal-adv" [INTERNAL_POOL_NAME]
   else Py.ret tt).

Definition run (kube : option kube_client) : Py.M W Result :=
  Py.try_except
    (apply_pools kube ;;;
     _annotate_traefik_services_via_juju ;;;
     Py.ret (mkResult COMPLETED None))
    (fun e => Py.ret (mkResult FAILED (Some (exn_str e)))).

End Step.

End EnsureMetalLBIsolationStep.

(** ** [sunbeam/steps/network_isolation.py] *)

Module NetworkIsolationImport.

(** What the import does besides returning: it prints to the console
    and it saves answers. *)
Inductive effect : Type :=
| Printed (line : string)
| Saved (key : string) (answers : pyval).

Section Importer.
(** [NETWORK_ISOLATION_KEY] of [sunbeam.core.deployment], which is not
    among the sources. *)
Variable NETWORK_ISOLATION_KEY : string.

(** [SNAP_JSON] is [None] when the path does not exist; otherwise it is
    what [read_text()] does: it raises, or it returns the text.  The
    outcome is the returned value (or the exception that escapes), the
    answer store afterwards, and the effects in their order. *)
Definition import_network_isolation_answers
    (SNAP_JSON : option (exn + json_text)) (client : gmap string pyval)
    : (exn + pyval) * gmap string pyval * list effect :=
  match SNAP_JSON with
  | None => (inr (PDict []), client, [])
  | Some read_text =>
      match (text <?- read_text ;; json_loads text) with
      | inl e =>
          (inr (PDict []), client,
           [Printed ("[red]Invalid network-isolation.json: " +:+ exn_str e +:+ "[/red]")])
      | inr data =>
          match py_get data "enable_isolation" with
          | inl e => (inl e, client, [])
          | inr enable =>
              if negb (truthy enable) then (inr (PDict []), client, [])
              else
                let answers := PDict [("network_isolation", data)] in
                (inr data,
                 save_answers client NETWORK_ISOLATION_KEY answers,
                 [Saved NETWORK_ISOLATION_KEY answers;
                  Printed "[green]Imported network isolation config into answers.[/green]"])
          end
      end
  end.

End Importer.

End NetworkIsolationImport.

(** ** A live backend

    The two control planes as the steps meet them when nothing is broken:
    a juju model that knows a list of spaces and a list of applications,
    and a cluster that holds the MetalLB resources by name.  A space or a
    resource that exists cannot be created again.  The kube client is
    lightkube's [Client]: its [replace] takes the object to put in place
    and has no [body] keyword, so the call as
    [EnsureMetalLBIsolationStep] writes it is refused by the client, and
    nothing is sent to the cluster.  Whether the controller accepts
    [set-space-subnets] is a property of the controller. *)

Module Live.

Record world : Type := World {
  spaces : list string;
  accepts_set_space_subnets : bool;
  applications : list string;
  pools : gmap string resource;
  advertisements : gmap string resource;
}.

Definition called_process_error : exn :=
  Exn PyException "Command returned non-zero exit status 1.".
Definition already_exists : exn := Exn PyException "409 AlreadyExists".
Definition not_found : exn := Exn PyException "404 NotFound".
Definition unexpected_keyword : exn :=
  type_error "Client.replace() got an unexpected keyword argument 'body'".

(** The command line as words; [subprocess.run] refuses an argument that
    is not a string. *)
Fixpoint words (cmd : list pyval) : option (list string) :=
  match cmd with
  | [] => Some []
  | PStr s :: rest => cons s <$> words rest
  | _ :: _ => None
  end.

(** [juju spaces --format json] *)
Definition spaces_document (names : list string) : pyval :=
  PDict [("spaces", PList (map (fun n => PDict [("name", PStr n)]) names))].

Definition no_output : json_text :=
  JsonText (inl (Exn PyException "Expecting value: line 1 column 1 (char 0)")).

Definition add_space (name : string) (w : world) : world :=
  World (spaces w ++ [name]) (accepts_set_space_subnets w) (applications w)
        (pools w) (advertisements w).

Definition run_juju (verb : string) (args : list string) (w : world)
    : (exn + json_text) * world :=
  if decide (verb = "spaces") then
    (inr (JsonText (inr (spaces_document (spaces w)))), w)
  else if decide (verb = "add-space") then
    match args with
    | name :: _ =>
        if decide (name ∈ spaces w) then (inl called_process_error, w)
        else (inr no_output, add_space name w)
    | [] => (inl called_process_error, w)
    end
  else if decide (verb = "set-space-subnets") then
    match args with
    | name :: _ =>
        if accepts_set_space_subnets w && bool_decide (name ∈ spaces w)
        then (inr no_output, w)
        else (inl called_process_error, w)
    | [] => (inl called_process_error, w)
    end
  else if decide (verb = "model-config") then (inr no_output, w)
  else (inl called_process_error, w).

Definition live_subprocess_run (cmd : list pyval) (w : world)
    : (exn + json_text) * world :=
  match words cmd with
  | Some (program :: verb :: args) =>
      if decide (program = "juju") then run_juju verb args w
      else (inl (Exn PyException "No such file or directory"), w)
  | Some _ => (inl (Exn PyException "No such file or directory"), w)
  | None => (inl (type_error "expected str, bytes or os.PathLike object"), w)
  end.

Definition resource_name (body : resource) : option string :=
  match res_metadata body with
  | PDict d => match dict_lookup d "name" with Some (PStr n) => Some n | _ => None end
  | _ => None
  end.

Definition kind (res : res_class) (w : world) : gmap string resource :=
  match res with
  | IPAddressPool => pools w
  | L2Advertisement => advertisements w
  end.

Definition store (res : res_class) (name : string) (body : resource) (w : world)
    : world :=
  match res with
  | IPAddressPool =>
      World (spaces w) (accepts_set_space_subnets w) (applications w)
            (<[name := body]> (pools w)) (advertisements w)
  | L2Advertisement =>
      World (spaces w) (accepts_set_space_subnets w) (applications w)
            (pools w) (<[name := body]> (advertisements w))
  end.

Definition live_kube_create (body : resource) (w : world) : (exn + unit) * world :=
  match resource_name body with
  | None => (inl (Exn PyException "422 Invalid"), w)
  | Some name =>
      match kind (res_cls body) w !! name with
      | Some _ => (inl already_exists, w)
      | None => (inr tt, store (res_cls body) name body w)
      end
  end.

(** [replace(res, name=name, namespace=namespace, body=body)]: the
    keyword [body] is not one of [Client.replace]. *)
Definition live_kube_replace (res : res_class) (name namespace : string)
    (body : resource) (w : world) : (exn + unit) * world :=
  (inl unexpected_keyword, w).

Definition live_juju_cli (args : list cli_arg) (json_format : bool) (w : world)
    : (exn + unit) * world :=
  match args with
  | Word verb :: Word app :: _ =>
      if bool_decide (verb = "config") && bool_decide (app ∈ applications w)
      then (inr tt, w)
      else (inl called_process_error, w)
  | _ => (inl called_process_error, w)
  end.

Definition backend : Backend world := {|
  subprocess_run := live_subprocess_run;
  get_kube_client := fun w => (inr KubeClient, w);
  kube_create := live_kube_create;
  kube_replace := live_kube_replace;
  juju_helper_load := fun w => (inr tt, w);
  get_application_names := fun _ w => (inr (applications w), w);
  juju_cli := live_juju_cli;
|}.

End Live.

(** ** A scripted backend

    A backend that answers by a script: each call takes the next line,
    which either makes the call raise ([None]) or makes it return, with
    the given output where the call is a subprocess.  When the script has
    run out every call raises.  The applications of the model are fixed. *)

Module Scripted.

Record world : Type := World {
  script : list (option json_text);
  applications : list string;
}.

Definition no_kubeconfig : exn := Exn KubeClientError "K8S kubeconfig not found".

Definition answer_with {A} (e : exn) (f : json_text -> A) (w : world)
    : (exn + A) * world :=
  match script w with
  | Some out :: rest => (inr (f out), World rest (applications w))
  | None :: rest => (inl e, World rest (applications w))
  | [] => (inl e, w)
  end.

Definition backend : Backend world := {|
  subprocess_run := fun _ => answer_with Live.called_process_error id;
  get_kube_client := answer_with no_kubeconfig (fun _ => KubeClient);
  kube_create := fun _ => answer_with Live.already_exists (fun _ => tt);
  kube_replace := fun _ _ _ _ => answer_with Live.not_found (fun _ => tt);
  juju_helper_load := answer_with Live.called_process_error (fun _ => tt);
  get_application_names := fun _ w => answer_with Live.called_process_error
                                        (fun _ => applications w) w;
  juju_cli := fun _ _ => answer_with Live.called_process_error (fun _ => tt);
|}.

(** The text [juju spaces --format json] prints for the given spaces. *)
Definition spaces_text (names : list string) : json_text :=
  JsonText (inr (Live.spaces_document names)).

End Scripted.

(** ** Vocabulary of the properties *)

(** The enable flag as [EnsureJujuSpacesStep] reads it. *)
Definition spaces_enable_flag (client : gmap string pyval) : exn + pyval :=
  ni <?- EnsureJujuSpacesStep.network_isolation client ;;
  py_get ni "enable_isolation".

(** Isolation is disabled: the flag is false where either step reads it. *)
Definition isolation_disabled (client : gmap string pyval) : Prop :=
  (∃ v, spaces_enable_flag client = inr v ∧ truthy v = false) ∧
  EnsureMetalLBIsolationStep.enable_iso client = inr false.

(** The [k8s-addons] answers: the entry [k8s-addons] of what the store
    holds under [TerraformVarsK8SAddons], the empty mapping when there is
    no such entry. *)
Definition k8s_addons (client : gmap string pyval) : exn + pyval :=
  py_get_default (load_answers client "TerraformVarsK8SAddons")
                 "k8s-addons" (PDict []).

(** The answer [k] of the add-ons, [None] when it is not given. *)
Definition answer (d : list (string * pyval)) (k : string) : pyval :=
  default PNone (dict_lookup d k).

(** The flag the store holds for the pools step: the entry
    [enable_isolation] at the top of what is saved under
    [network_isolation], [None] when nothing is saved there, when it is not
    a mapping, or when the mapping has no such entry. *)
Definition isolation_flag (client : gmap string pyval) : pyval :=
  match client !! "network_isolation" with
  | Some (PDict ni) => answer ni "enable_isolation"
  | _ => PNone
  end.

(** The configured spaces: the entry [spaces] of the entry
    [network_isolation] of what the store holds under [network_isolation],
    the empty mapping where an entry is not given. *)
Definition spaces_answer (client : gmap string pyval) : exn + pyval :=
  v <?- py_get (py_or (load_answers client "network_isolation") (PDict []))
               "network_isolation" ;;
  v <?- py_get (py_or v (PDict [])) "spaces" ;;
  inr (py_or v (PDict [])).

(** The spaces [EnsureJujuSpacesStep.run] is to ensure, in the order of
    the mapping. *)
Definition configured_spaces (client : gmap string pyval)
    : exn + list (string * pyval) :=
  spaces <?- spaces_answer client ;;
  py_items spaces.

(** The query of the spaces of the model, and the commands that create a
    space, update it, and set the default space of the model. *)
Definition spaces_query (model : string) : call :=
  SubprocessRun
    [PStr "juju"; PStr "spaces"; PStr "--format"; PStr "json";
     PStr "--model"; PStr model].

(** [juju <verb> <name> <subnet>... --model <model>] *)
Definition space_cmd (verb model name : string) (subnets : list pyval)
    : list pyval :=
  PStr "juju" :: PStr verb :: PStr name :: subnets ++ [PStr "--model"; PStr model].

Definition add_space_call (model name : string) (subnets : list pyval) : call :=
  SubprocessRun (space_cmd "add-space" model name subnets).

Definition set_space_subnets_call (model name : string) (subnets : list pyval)
    : call :=
  SubprocessRun (space_cmd "set-space-subnets" model name subnets).

Definition default_space_call (model : string) : call :=
  SubprocessRun
    [PStr "juju"; PStr "model-config"; PStr "--model"; PStr model;
     PStr "default-space=management"].

(** What the transcript records of the outcome of a subprocess. *)
Definition ran (r : exn + json_text) : response :=
  match r with
  | inl e => Raised e
  | inr out => Output out
  end.

(** The two pool roles, with the names the step gives their pool and
    their advertisement. *)
Inductive role : Type := Public | Internal.

Definition pool_name (r : role) : string :=
  match r with
  | Public => "sunbeam-public-pool"
  | Internal => "sunbeam-internal-pool"
  end.

Definition adv_name (r : role) : string :=
  match r with
  | Public => "sunbeam-public-adv"
  | Internal => "sunbeam-internal-adv"
  end.

Definition range_of (r : role) (ranges : pyval * pyval) : pyval :=
  match r with
  | Public => fst ranges
  | Internal => snd ranges
  end.

(** The name in the metadata of the body of a create, or the name a
    replace is given. *)
Definition kube_target (c : call) : option (res_class * pyval) :=
  match c with
  | KubeCreate body =>
      match res_metadata body with
      | PDict (("name", n) :: _) => Some (res_cls body, n)
      | _ => None
      end
  | KubeReplace res name _ _ => Some (res, PStr name)
  | _ => None
  end.

(** A create or replace of the resource [name] of class [res]. *)
Definition applies (res : res_class) (name : string) (c : call) : Prop :=
  kube_target c = Some (res, PStr name).

(** A call of the annotation phase. *)
Definition annotation_call (c : call) : Prop :=
  match c with
  | JujuHelperLoad | GetApplicationNames _ | JujuCli _ _ => True
  | _ => False
  end.

(** The table of the Traefik applications: each with the pool its
    service is to take its address from. *)
Definition traefik_pools : list (string * string) :=
  [("traefik", "sunbeam-internal-pool");
   ("traefik-public", "sunbeam-public-pool");
   ("traefik-rgw", "sunbeam-public-pool")].

(** A call of the pool phase for the role [r]. *)
Definition pool_phase_call (r : role) (c : call) : Prop :=
  applies IPAddressPool (pool_name r) c ∨ applies L2Advertisement (adv_name r) c.

(** The block of [EnsureMetalLBIsolationStep.run] for one role: the pool
    and its advertisement, when the range of the role is set. *)
Definition ensure_role {W} (B : Backend W) (METALLB_NS : string)
    (kube : option kube_client) (r : role) (range : pyval) : Py.M W unit :=
  if truthy range then
    EnsureMetalLBIsolationStep._ensure_pool B METALLB_NS kube (pool_name r) range ;;;
    EnsureMetalLBIsolationStep._ensure_l2adv B METALLB_NS kube (adv_name r) [pool_name r]
  else Py.ret tt.

(** What [create_or_replace] can come to, with its transcript: the
    resource is created; the creation raises and the resource is replaced;
    both raise; or there is no kube client to call. *)
Inductive applied (METALLB_NS what : string) (res : res_class) (name : string)
    (body : resource) : exn + unit -> list event -> Prop :=
| applied_created :
    applied METALLB_NS what res name body (inr tt) [Ev (KubeCreate body) Done]
| applied_replaced e :
    applied METALLB_NS what res name body (inr tt)
      [Ev (KubeCreate body) (Raised e);
       Ev (KubeReplace res name METALLB_NS body) Done]
| applied_refused e re :
    applied METALLB_NS what res name body
      (inl (EnsureMetalLBIsolationStep.failed_to_apply what name re))
      [Ev (KubeCreate body) (Raised e);
       Ev (KubeReplace res name METALLB_NS body) (Raised re)]
| applied_without_client :
    applied METALLB_NS what res name body
      (inl (EnsureMetalLBIsolationStep.failed_to_apply what name
              (attribute_error PNone "replace")))
      [].

(** A juju command line that names the model it is run against. *)
Definition targets_model (model : string) (cmd : list pyval) : Prop :=
  ∃ before after,
    cmd = PStr "juju" :: before ++ PStr "--model" :: PStr model :: after.

(** The command [run] issues for a configured space: the update when the
    space is among the live spaces, the creation when it is not. *)
Definition space_command (model : string) (existing : list pyval)
    (items : list (string * pyval)) (c : call) : Prop :=
  ∃ name spec l,
    (name, spec) ∈ items ∧
    c = if py_str_in name existing
        then set_space_subnets_call model name l
        else add_space_call model name l.

(** The create of [body], or its replace under [name] in the namespace. *)
Definition kube_apply (METALLB_NS : string) (res : res_class) (name : string)
    (body : resource) (c : call) : Prop :=
  c = KubeCreate body ∨ c = KubeReplace res name METALLB_NS body.

(** A call that applies a resource of the role [r]: its pool, named by
    the fixed pool name, or its advertisement, which lists that pool and
    no other. *)
Definition role_resource (METALLB_NS : string) (r : role) (c : call) : Prop :=
  (∃ addrs,
     kube_apply METALLB_NS IPAddressPool (pool_name r)
       (EnsureMetalLBIsolationStep.pool_body METALLB_NS (pool_name r) addrs) c) ∨
  kube_apply METALLB_NS L2Advertisement (adv_name r)
    (EnsureMetalLBIsolationStep.l2adv_body METALLB_NS (adv_name r) [pool_name r]) c.

(** In a transcript, a replace comes right after the create of the same
    body, and that create has raised: the replace is not the first call,
    and the call before it is that create. *)
Definition replace_after_create (t : list event) : Prop :=
  ∀ i res name namespace body resp,
    t !! i = Some (Ev (KubeReplace res name namespace body) resp) ->
    ∃ j e, i = S j ∧ t !! j = Some (Ev (KubeCreate body) (Raised e)).

(** [",".join(tokens)] *)
Fixpoint py_join_comma (tokens : list string) : string :=
  match tokens with
  | [] => ""
  | [t] => t
  | t :: rest => t +:+ String "," (py_join_comma rest)
  end.

(** The string has no comma. *)
Fixpoint no_comma (s : string) : bool :=
  match s with
  | EmptyString => true
  | String c rest => negb (Ascii.eqb c ",") && no_comma rest
  end.

(** The string is made of whitespace and commas only. *)
Fixpoint all_blank (s : string) : bool :=
  match s with
  | EmptyString => true
  | String c rest =>
      (Ascii.eqb c "," || EnsureMetalLBIsolationStep.is_space c) && all_blank rest
  end.

(** The string is ASCII text. *)
Fixpoint ascii_text (s : string) : bool :=
  match s with
  | EmptyString => true
  | String c rest => (nat_of_ascii c <? 128)%nat && ascii_text rest
  end.

(** An address as a pool takes it: not empty, without whitespace around
    it, without a comma. *)
Definition clean_address (a : string) : Prop :=
  a ≠ "" ∧ EnsureMetalLBIsolationStep.py_strip a = a ∧ no_comma a = true.

(** ** Deployments to run the steps on *)

Module Examples.

(** Answers as the import leaves them, but with the flag switched off at
    both places where a step reads it. *)
Definition disabled_answers : gmap string pyval :=
  {[ "network_isolation" :=
       PDict [("enable_isolation", PBool false);
              ("network_isolation",
               PDict [("enable_isolation", PBool false);
                      ("spaces",
                       PDict [("management",
                               PDict [("subnets", PList [PStr "10.0.0.0/24"])])])])] ]}.

(** Isolation enabled where [EnsureMetalLBIsolationStep] reads the
    flag, and one shared load-balancer range. *)
Definition shared_range_answers : gmap string pyval :=
  {[ "network_isolation" := PDict [("enable_isolation", PBool true)];
     "TerraformVarsK8SAddons" :=
       PDict [("k8s-addons", PDict [("loadbalancer", PStr "10.20.0.1-10.20.0.9")])] ]}.

(** The flag switched off where [EnsureMetalLBIsolationStep] reads it,
    with a public range and a shared range given all the same. *)
Definition switched_off_answers : gmap string pyval :=
  {[ "network_isolation" := PDict [("enable_isolation", PBool false)];
     "TerraformVarsK8SAddons" :=
       PDict [("k8s-addons",
               PDict [("lb_public_pool", PStr "10.1.0.0/24");
                      ("loadbalancer", PStr "10.20.0.1-10.20.0.9")])] ]}.

(** A [network-isolation.json] that opts out: the document, and the
    text of the file. *)
Definition opted_out_document : pyval :=
  PDict [("enable_isolation", PBool false);
         ("spaces",
          PDict [("management", PDict [("subnets", PList [PStr "10.0.0.0/24"])])])].

Definition opted_out : json_text := JsonText (inr opted_out_document).

(** One space to ensure, in the layout the import saves. *)
Definition management : pyval :=
  PDict [("subnets", PList [PStr "10.0.0.0/24"])].

Definition management_answers : gmap string pyval :=
  {[ "network_isolation" :=
       PDict [("network_isolation",
               PDict [("enable_isolation", PBool true);
                      ("spaces", PDict [("management", management)])])] ]}.

(** Scripts: the query of the spaces fails; the model has no space and
    the controller refuses to create one; the model has the space and the
    controller refuses to update it. *)
Definition unreachable : Scripted.world := Scripted.World [None] [].

Definition refuses_creation : Scripted.world :=
  Scripted.World [Some (Scripted.spaces_text []); None] [].

Definition refuses_update : Scripted.world :=
  Scripted.World [Some (Scripted.spaces_text ["management"]); None; None] [].

(** Isolation enabled where [EnsureMetalLBIsolationStep] reads the
    flag, and a public range only. *)
Definition public_only_answers : gmap string pyval :=
  {[ "network_isolation" := PDict [("enable_isolation", PBool true)];
     "TerraformVarsK8SAddons" :=
       PDict [("k8s-addons",
               PDict [("lb_public_pool", PStr "10.1.0.0/24, 10.1.1.0/24")])] ]}.

Definition public_addresses : list pyval := [PStr "10.1.0.0/24"; PStr "10.1.1.0/24"].

(** A cluster that refuses both the creation and the replacement. *)
Definition refuses_pool : Scripted.world := Scripted.World [None; None] [].


(** The public pool of [isolated_answers]. *)
Definition public_pool : resource :=
  EnsureMetalLBIsolationStep.pool_body "metallb-system" "sunbeam-public-pool"
    public_addresses.

(** A model with no space yet and two of the Traefik applications. *)
Definition fresh : Live.world :=
  Live.World [] false ["traefik"; "traefik-public"] ∅ ∅.

(** Spaces that ask for nothing: no subnets, or an empty list of them. *)
Definition idle_answers : gmap string pyval :=
  {[ "network_isolation" :=
       PDict [("network_isolation",
               PDict [("enable_isolation", PBool true);
                      ("spaces",
                       PDict [("management", PDict [("subnets", PList [])]);
                              ("data", PDict [])])])] ]}.

(** A space given as the list of its subnets, not as a mapping. *)
Definition malformed_space : pyval := PList [PStr "10.0.0.0/24"].

Definition malformed_answers : gmap string pyval :=
  {[ "network_isolation" :=
       PDict [("network_isolation",
               PDict [("enable_isolation", PBool true);
                      ("spaces", PDict [("management", malformed_space)])])] ]}.

(** A model that can be queried and then refuses; a cluster that takes the
    pool and refuses the advertisement. *)
Definition refuses_default_space : Scripted.world :=
  Scripted.World [Some (Scripted.spaces_text []); None] [].

Definition refuses_advertisement : Scripted.world :=
  Scripted.World [Some Live.no_output; None; None] [].

Definition public_advertisement : resource :=
  EnsureMetalLBIsolationStep.l2adv_body "metallb-system" "sunbeam-public-adv"
    ["sunbeam-public-pool"].

(** A deployment with two of the Traefik applications, where the cluster
    takes the pool and the advertisement, the model reports its
    applications, and the first [juju config] is refused. *)
Definition refuses_annotation : Scripted.world :=
  Scripted.World [Some Live.no_output; Some Live.no_output; Some Live.no_output;
                  Some Live.no_output; None]
                 ["traefik"; "traefik-public"].

(** A [network-isolation.json] that opts in, and one that holds a list. *)
Definition opted_in_document : pyval :=
  PDict [("enable_isolation", PBool true);
         ("spaces", PDict [("management", management)])].

Definition opted_in : json_text := JsonText (inr opted_in_document).

Definition not_a_mapping : json_text := JsonText (inr (PList [PStr "management"])).



End Examples.

(** * Properties *)

(** ** How computations run *)

Section Running.
Context {W : Type}.

Lemma bind_returned {A C} (m : Py.M W A) (f : A -> Py.M W C) w a w1 t1 :
  m w = (inr a, w1, t1) ->
  Py.bind m f w = (let '(r, w2, t2) := f a w1 in (r, w2, t1 ++ t2)).
Proof. intros H. unfold Py.bind. rewrite H. reflexivity. Qed.

Lemma bind_raised {A C} (m : Py.M W A) (f : A -> Py.M W C) w e w1 t1 :
  m w = (inl e, w1, t1) -> Py.bind m f w = (inl e, w1, t1).
Proof. intros H. unfold Py.bind. rewrite H. reflexivity. Qed.

Lemma bind_lift_returned {A C} (a : A) (f : A -> Py.M W C) w :
  Py.bind (Py.lift (inr a)) f w = f a w.
Proof. unfold Py.bind, Py.lift. destruct (f a w) as [[r w2] t2]. reflexivity. Qed.

Lemma bind_lift_raised {A C} (e : exn) (f : A -> Py.M W C) w :
  Py.bind (Py.lift (inl e)) f w = (inl e, w, []).
Proof. reflexivity. Qed.

Lemma bind_ret {A C} (a : A) (f : A -> Py.M W C) w :
  Py.bind (Py.ret a) f w = f a w.
Proof. apply (bind_lift_returned a f w). Qed.

Lemma try_returned {A} (m : Py.M W A) h w a w1 t1 :
  m w = (inr a, w1, t1) -> Py.try_except m h w = (inr a, w1, t1).
Proof. intros H. unfold Py.try_except. rewrite H. reflexivity. Qed.

Lemma try_raised {A} (m : Py.M W A) h w e w1 t1 :
  m w = (inl e, w1, t1) ->
  Py.try_except m h w = (let '(r, w2, t2) := h e w1 in (r, w2, t1 ++ t2)).
Proof. intros H. unfold Py.try_except. rewrite H. reflexivity. Qed.

Lemma perform_ran {A} (c : call) (op : W -> (exn + A) * W) log w r w1 :
  op w = (r, w1) ->
  Py.perform c op log w =
    (r, w1, [Ev c (match r with inl e => Raised e | inr a => log a end)]).
Proof. intros H. unfold Py.perform. rewrite H. destruct r; reflexivity. Qed.

(** The configured spaces are what [EnsureJujuSpacesStep.run] reads. *)
Lemma spaces_answer_read (client : gmap string pyval) :
  spaces_answer client =
    (ni <?- EnsureJujuSpacesStep.network_isolation client ;;
     v <?- py_get ni "spaces" ;;
     inr (py_or v (PDict []))).
Proof.
  unfold spaces_answer, EnsureJujuSpacesStep.network_isolation,
    EnsureJujuSpacesStep._answers, EnsureJujuSpacesStep.NETWORK_ISOLATION_KEY.
  destruct (py_get _ "network_isolation"); reflexivity.
Qed.

End Running.

(** ** The enable flag *)

Section Disabled.
Context {W : Type} (B : Backend W).

Lemma spaces_is_skip_disabled (client : gmap string pyval) v (w : W) :
  spaces_enable_flag client = inr v -> truthy v = false ->
  EnsureJujuSpacesStep.is_skip client w =
    (inr (mkResult SKIPPED (Some "Network isolation disabled")), w, []).
Proof.
  unfold spaces_enable_flag, EnsureJujuSpacesStep.is_skip. intros Hflag Hv.
  destruct (EnsureJujuSpacesStep.network_isolation client) as [e|ni]; [discriminate|].
  simpl in Hflag. rewrite bind_lift_returned, Hflag, bind_lift_returned, Hv.
  reflexivity.
Qed.

Lemma ranges_disabled (client : gmap string pyval) d :
  k8s_addons client = inr (PDict d) ->
  EnsureMetalLBIsolationStep.enable_iso client = inr false ->
  EnsureMetalLBIsolationStep._ranges_from_answers client = inr (PNone, PNone).
Proof.
  unfold k8s_addons, EnsureMetalLBIsolationStep._ranges_from_answers,
    EnsureMetalLBIsolationStep.K8S_ADDONS_CONFIG_KEY.
  intros -> ->. reflexivity.
Qed.

(** C1, as the code has it.  With the enable flag false,
    [EnsureJujuSpacesStep.is_skip] returns Skipped and makes no call, and
    [EnsureMetalLBIsolationStep.is_skip] returns Skipped once it has
    obtained the kube client (the answers of k8s-addons being a mapping):
    obtaining the client is the only call it makes, so neither step runs
    a juju command, creates or replaces a resource, or annotates. *)
Theorem C1_disabled_is_skipped (client : gmap string pyval)
    (self_kube : option kube_client) (w w1 : W) (k : kube_client) d :
  isolation_disabled client ->
  k8s_addons client = inr (PDict d) ->
  get_kube_client B w = (inr k, w1) ->
  EnsureJujuSpacesStep.is_skip client w =
    (inr (mkResult SKIPPED (Some "Network isolation disabled")), w, []) ∧
  EnsureMetalLBIsolationStep.is_skip B client self_kube w =
    (inr (Some k, mkResult SKIPPED None), w1, [Ev GetKubeClient Done]).
Proof.
  intros [[v [Hflag Hv]] Hiso] Haddons Hkube. split.
  - exact (spaces_is_skip_disabled client v w Hflag Hv).
  - unfold EnsureMetalLBIsolationStep.is_skip.
    rewrite (perform_ran _ _ _ _ _ _ Hkube).
    rewrite (ranges_disabled client d Haddons Hiso). reflexivity.
Qed.

End Disabled.

Lemma C1_disabled_is_skipped_witness :
  EnsureJujuSpacesStep.is_skip Examples.disabled_answers Examples.fresh =
    (inr (mkResult SKIPPED (Some "Network isolation disabled")), Examples.fresh, []) ∧
  EnsureMetalLBIsolationStep.is_skip Live.backend Examples.disabled_answers None
      Examples.fresh =
    (inr (Some KubeClient, mkResult SKIPPED None), Examples.fresh,
     [Ev GetKubeClient Done]).
Proof.
  apply (C1_disabled_is_skipped Live.backend Examples.disabled_answers None
           Examples.fresh Examples.fresh KubeClient []).
  - split; [exists (PBool false); split; reflexivity | reflexivity].
  - reflexivity.
  - reflexivity.
Defined.

(** C1 as stated fails: the flag is false, and yet
    [EnsureMetalLBIsolationStep.is_skip] returns Failed, not Skipped, where
    the kube client cannot be obtained. *)
Lemma C1_counterexample :
  isolation_disabled Examples.disabled_answers ∧
  EnsureMetalLBIsolationStep.is_skip Scripted.backend Examples.disabled_answers None
      (Scripted.World [None] []) =
    (inr (None, mkResult FAILED (Some "K8S kubeconfig not found")),
     Scripted.World [] [],
     [Ev GetKubeClient (Raised Scripted.no_kubeconfig)]) ∧
  FAILED ≠ SKIPPED.
Proof.
  split; [|split].
  - split; [exists (PBool false); split; reflexivity | reflexivity].
  - reflexivity.
  - discriminate.
Qed.

(** ** Range resolution *)

Section Ranges.
Import EnsureMetalLBIsolationStep.

Lemma ranges_enabled (client : gmap string pyval) d :
  k8s_addons client = inr (PDict d) ->
  enable_iso client = inr true ->
  _ranges_from_answers client =
    inr (if negb (truthy (answer d "lb_public_pool")) && truthy (answer d "loadbalancer")
         then answer d "loadbalancer" else answer d "lb_public_pool",
         if negb (truthy (answer d "lb_internal_pool")) && truthy (answer d "loadbalancer")
         then answer d "loadbalancer" else answer d "lb_internal_pool").
Proof.
  unfold k8s_addons, _ranges_from_answers, K8S_ADDONS_CONFIG_KEY.
  intros -> ->. reflexivity.
Qed.

(** [enable_iso] is the truth of the flag the store holds; it does not
    raise. *)
Lemma enable_iso_flag (client : gmap string pyval) :
  enable_iso client = inr (truthy (isolation_flag client)).
Proof.
  unfold enable_iso, isolation_flag, load_answers, NETWORK_ISOLATION_CONFIG_KEY.
  destruct (client !! "network_isolation") as [[]|]; reflexivity.
Qed.

(** C7.  With isolation enabled (the entry [enable_isolation] at the top
    of the saved [network_isolation] answers is true), the resolved public
    (internal) range is the explicit public (internal) answer when that is
    set, and otherwise the shared range when that is set; so with only the
    shared range set, both resolved ranges are the shared range.  With
    isolation disabled (the entry is false or missing, or what is saved is
    not a mapping) both resolved ranges are [None], whatever the
    answers. *)
Theorem C7_range_resolution (client : gmap string pyval) d :
  k8s_addons client = inr (PDict d) ->
  let public := answer d "lb_public_pool" in
  let internal := answer d "lb_internal_pool" in
  let shared := answer d "loadbalancer" in
  (truthy (isolation_flag client) = true ->
   ∃ public_range internal_range,
     _ranges_from_answers client = inr (public_range, internal_range) ∧
     (truthy public = true -> public_range = public) ∧
     (truthy public = false -> truthy shared = true -> public_range = shared) ∧
     (truthy internal = true -> internal_range = internal) ∧
     (truthy internal = false -> truthy shared = true -> internal_range = shared) ∧
     (truthy public = false -> truthy internal = false -> truthy shared = true ->
      public_range = shared ∧ internal_range = shared)) ∧
  (truthy (isolation_flag client) = false ->
   _ranges_from_answers client = inr (PNone, PNone)).
Proof.
  intros Haddons public internal shared.
  pose proof (enable_iso_flag client) as Hiso. split; intros Hflag; rewrite Hflag in Hiso.
  - eexists _, _. split; [exact (ranges_enabled client d Haddons Hiso)|].
    fold public internal shared.
    repeat split; intros; repeat match goal with H : truthy _ = _ |- _ => rewrite H end;
      reflexivity.
  - unfold k8s_addons in Haddons. unfold _ranges_from_answers, K8S_ADDONS_CONFIG_KEY.
    rewrite Haddons, Hiso. reflexivity.
Qed.

End Ranges.

Lemma C7_range_resolution_witness :
  EnsureMetalLBIsolationStep._ranges_from_answers Examples.shared_range_answers =
    inr (PStr "10.20.0.1-10.20.0.9", PStr "10.20.0.1-10.20.0.9") ∧
  EnsureMetalLBIsolationStep._ranges_from_answers Examples.switched_off_answers =
    inr (PNone, PNone).
Proof.
  split.
  - destruct (C7_range_resolution Examples.shared_range_answers
                [("loadbalancer", PStr "10.20.0.1-10.20.0.9")] eq_refl) as [Henabled _].
    destruct (Henabled eq_refl) as (p & i & Hranges & _ & _ & _ & _ & Hshared).
    destruct (Hshared eq_refl eq_refl eq_refl) as [-> ->]. exact Hranges.
  - destruct (C7_range_resolution Examples.switched_off_answers
                [("lb_public_pool", PStr "10.1.0.0/24");
                 ("loadbalancer", PStr "10.20.0.1-10.20.0.9")] eq_refl)
      as [_ Hdisabled].
    exact (Hdisabled eq_refl).
Defined.

(** ** The import *)

Section Importing.
Import NetworkIsolationImport.

(** C9.  When the file is read and decoded and the enable flag of the
    document is false, the import returns the empty mapping, saves no
    answers and leaves the answer store as it was. *)
Theorem C9_import_disabled (KEY : string) (client : gmap string pyval)
    (text : json_text) (data enable : pyval) :
  json_loads text = inr data ->
  py_get data "enable_isolation" = inr enable ->
  truthy enable = false ->
  import_network_isolation_answers KEY (Some (inr text)) client =
    (inr (PDict []), client, []).
Proof.
  intros Hdata Hflag Hfalse. unfold import_network_isolation_answers. simpl.
  rewrite Hdata, Hflag, Hfalse. reflexivity.
Qed.

End Importing.

Lemma C9_import_disabled_witness :
  NetworkIsolationImport.import_network_isolation_answers "NetworkIsolation"
    (Some (inr Examples.opted_out)) Examples.shared_range_answers =
    (inr (PDict []), Examples.shared_range_answers, []).
Proof.
  apply (C9_import_disabled "NetworkIsolation" Examples.shared_range_answers
           Examples.opted_out Examples.opted_out_document (PBool false)); reflexivity.
Defined.

(** ** Spaces *)

Section Spaces.
Import EnsureJujuSpacesStep.
Context {W : Type} (B : Backend W).
Variable client : gmap string pyval.
Variable model : string.

(** The query makes one call, whether it raises, prints what cannot be
    read, or returns the names. *)
Lemma existing_spaces_transcript (w : W) :
  ∃ resp, snd (existing_spaces B model w) = [Ev (spaces_query model) resp].
Proof.
  unfold existing_spaces, _juju, Py.bind, Py.perform, Py.lift, spaces_query.
  destruct (subprocess_run B _ w) as [[e|raw] w1]; simpl; eauto.
Qed.

Lemma run_after_query (spaces : pyval) (w : W) :
  spaces_answer client = inr spaces ->
  run B client model w =
    match existing_spaces B model w with
    | (inl e, w1, t1) => (inr (unable_to_read e), w1, t1)
    | (inr existing, w1, t1) =>
        let '(r, w2, t2) := reconcile B model spaces existing w1 in
        (r, w2, t1 ++ t2)
    end.
Proof.
  unfold spaces_answer, run, network_isolation, _answers, NETWORK_ISOLATION_KEY.
  intros Hspaces.
  destruct (py_get (py_or (load_answers client "network_isolation") (PDict []))
                   "network_isolation") as [e|v0]; [discriminate|].
  cbn [sum_bind] in Hspaces |- *. rewrite bind_lift_returned.
  destruct (py_get (py_or v0 (PDict [])) "spaces") as [e|v]; [discriminate|].
  cbn [sum_bind] in Hspaces |- *. injection Hspaces as <-. rewrite bind_lift_returned.
  unfold Py.bind at 1, Py.try_except, Py.bind at 1, Py.ret.
  destruct (existing_spaces B model w) as [[[e|existing] w1] t1]; simpl.
  - rewrite !app_nil_r. reflexivity.
  - destruct (reconcile B model (py_or v (PDict [])) existing w1) as [[r w2] t2].
    rewrite !app_nil_r. reflexivity.
Qed.

(** C6.  When the query of the live spaces fails, [run] returns Failed
    with the error, and the failed query is the only call of the
    invocation: no space is created or updated and the default space is
    not set. *)
Theorem C6_query_failure (spaces : pyval) (w w1 : W) (e : exn) (t : list event) :
  spaces_answer client = inr spaces ->
  existing_spaces B model w = (inl e, w1, t) ->
  run B client model w =
    (inr (mkResult FAILED (Some ("Unable to read model spaces: " +:+ exn_str e))), w1, t) ∧
  ∃ resp, t = [Ev (spaces_query model) resp].
Proof.
  intros Hspaces Hquery. split.
  - rewrite (run_after_query spaces w Hspaces), Hquery. reflexivity.
  - destruct (existing_spaces_transcript w) as [resp Ht].
    rewrite Hquery in Ht. eauto.
Qed.

(** *** One round of the loop *)

(** A space given as a mapping whose entry [subnets] is a list that is
    not empty: these are its subnets. *)
Lemma subnets_of_list d l :
  dict_lookup d "subnets" = Some (PList l) -> l ≠ [] ->
  subnets_of (PDict d) = inr (PList l).
Proof.
  intros Hd Hl. unfold subnets_of.
  replace (py_or (PDict d) (PDict [])) with (PDict d)
    by (destruct d; [discriminate|reflexivity]).
  unfold py_get, py_get_default. rewrite Hd. cbn [default from_option sum_bind id].
  destruct l; [congruence|reflexivity].
Qed.

Lemma ensure_space_update existing name spec l (w w1 : W) r :
  subnets_of spec = inr (PList l) -> l ≠ [] ->
  py_str_in name existing = true ->
  subprocess_run B (juju_cmd model (PStr "set-space-subnets" :: PStr name :: l)) w
    = (r, w1) ->
  ensure_space B model existing name spec w =
    (inr None, w1, [Ev (set_space_subnets_call model name l) (ran r)]).
Proof.
  intros Hsub Hl Hin Hrun. unfold ensure_space.
  rewrite Hsub, bind_lift_returned.
  destruct l as [|x l]; [congruence|].
  unfold juju_space, Py.try_except, Py.bind, Py.lift, Py.ret, _juju, Py.perform.
  simpl in Hrun |- *. rewrite Hin, Hrun. destruct r; reflexivity.
Qed.

Lemma ensure_space_create existing name spec l (w w1 : W) r :
  subnets_of spec = inr (PList l) -> l ≠ [] ->
  py_str_in name existing = false ->
  subprocess_run B (juju_cmd model (PStr "add-space" :: PStr name :: l)) w
    = (r, w1) ->
  ensure_space B model existing name spec w =
    (inr (match r with
          | inl e => Some (failed_to_ensure name e)
          | inr _ => None
          end),
     w1, [Ev (add_space_call model name l) (ran r)]).
Proof.
  intros Hsub Hl Hin Hrun. unfold ensure_space.
  rewrite Hsub, bind_lift_returned.
  destruct l as [|x l]; [congruence|].
  unfold juju_space, Py.try_except, Py.bind, Py.lift, Py.ret, _juju, Py.perform.
  simpl in Hrun |- *. rewrite Hin, Hrun. destruct r; reflexivity.
Qed.

(** The loop over the spaces that come first, when none of them makes
    [run] return, is followed by the loop over the rest. *)
Lemma ensure_spaces_app existing pre rest (w w1 : W) t1 :
  ensure_spaces B model existing pre w = (inr None, w1, t1) ->
  ensure_spaces B model existing (pre ++ rest) w =
    (let '(r, w2, t2) := ensure_spaces B model existing rest w1 in (r, w2, t1 ++ t2)).
Proof.
  revert w t1. induction pre as [|[name spec] pre IH]; intros w t1 Hpre.
  - simpl in Hpre. unfold Py.ret in Hpre. injection Hpre as <- <-. simpl.
    destruct (ensure_spaces B model existing rest w) as [[r w2] t2]. reflexivity.
  - simpl in Hpre |- *. unfold Py.bind in Hpre |- *.
    destruct (ensure_space B model existing name spec w) as [[[e|[res|]] w0] t0];
      try discriminate.
    destruct (ensure_spaces B model existing pre w0) as [[r' w'] t'] eqn:Hloop.
    injection Hpre as -> -> <-.
    rewrite (IH w0 t' Hloop).
    destruct (ensure_spaces B model existing rest w1) as [[r w2] t2].
    rewrite app_assoc. reflexivity.
Qed.

Lemma ensure_spaces_cons existing name spec rest (w w1 : W) t1 r :
  ensure_space B model existing name spec w = (inr r, w1, t1) ->
  ensure_spaces B model existing ((name, spec) :: rest) w =
    match r with
    | Some res => (inr (Some res), w1, t1 ++ [])
    | None =>
        let '(r', w2, t2) := ensure_spaces B model existing rest w1 in
        (r', w2, t1 ++ t2)
    end.
Proof.
  intros Hone. simpl. unfold Py.bind. rewrite Hone. destruct r; reflexivity.
Qed.

(** *** After the loop *)

Lemma set_default_space_ran (w w1 : W) r :
  subprocess_run B (default_space_cmd model) w = (r, w1) ->
  set_default_space B model w = (inr tt, w1, [Ev (default_space_call model) (ran r)]).
Proof.
  intros Hrun. unfold set_default_space, Py.try_except, Py.bind, Py.perform, Py.ret.
  rewrite Hrun. destruct r; reflexivity.
Qed.

Lemma reconcile_completed spaces items existing (w w1 w2 : W) t1 r :
  py_items spaces = inr items ->
  ensure_spaces B model existing items w = (inr None, w1, t1) ->
  subprocess_run B (default_space_cmd model) w1 = (r, w2) ->
  reconcile B model spaces existing w =
    (inr (mkResult COMPLETED None), w2,
     t1 ++ [Ev (default_space_call model) (ran r)]).
Proof.
  intros Hitems Hloop Hrun. unfold reconcile.
  rewrite Hitems, bind_lift_returned. unfold Py.bind at 1. rewrite Hloop.
  unfold Py.bind, Py.ret. rewrite (set_default_space_ran w1 w2 r Hrun).
  simpl. rewrite ?app_nil_r. reflexivity.
Qed.

Lemma reconcile_returned spaces items existing (w w1 : W) t1 res :
  py_items spaces = inr items ->
  ensure_spaces B model existing items w = (inr (Some res), w1, t1) ->
  reconcile B model spaces existing w = (inr res, w1, t1).
Proof.
  intros Hitems Hloop. unfold reconcile.
  rewrite Hitems, bind_lift_returned. unfold Py.bind, Py.ret. rewrite Hloop.
  rewrite app_nil_r. reflexivity.
Qed.

Lemma run_reconciles spaces items existing (w w0 : W) t0 :
  configured_spaces client = inr items ->
  spaces_answer client = inr spaces ->
  existing_spaces B model w = (inr existing, w0, t0) ->
  py_items spaces = inr items ∧
  run B client model w =
    (let '(r, w', t) := reconcile B model spaces existing w0 in (r, w', t0 ++ t)).
Proof.
  intros Hitems Hspaces Hquery. split.
  - unfold configured_spaces in Hitems. rewrite Hspaces in Hitems. exact Hitems.
  - rewrite (run_after_query spaces w Hspaces), Hquery. reflexivity.
Qed.

Lemma configured_spaces_answer items :
  configured_spaces client = inr items -> ∃ spaces, spaces_answer client = inr spaces.
Proof.
  unfold configured_spaces. destruct (spaces_answer client); [discriminate|eauto].
Qed.


(** An invocation that reads the live spaces and ends the loop sets the
    default space and returns Completed. *)
Lemma run_completed items existing (w w0 w1 w2 : W) t0 t1 r :
  configured_spaces client = inr items ->
  existing_spaces B model w = (inr existing, w0, t0) ->
  ensure_spaces B model existing items w0 = (inr None, w1, t1) ->
  subprocess_run B (default_space_cmd model) w1 = (r, w2) ->
  run B client model w =
    (inr (mkResult COMPLETED None), w2,
     t0 ++ t1 ++ [Ev (default_space_call model) (ran r)]).
Proof.
  intros Hitems Hquery Hloop Hdefault.
  destruct (configured_spaces_answer _ Hitems) as [spaces Hspaces].
  destruct (run_reconciles spaces _ existing w w0 t0 Hitems Hspaces Hquery)
    as [Hpy ->].
  rewrite (reconcile_completed spaces _ existing w0 w1 w2 _ r Hpy Hloop Hdefault).
  reflexivity.
Qed.

(** *** The claims about the loop *)

(** C5.  When the loop comes to a configured space whose entry
    [subnets] is a list that is not empty and whose name is not among the
    live spaces, [run] issues the command
    [juju add-space <name> <subnet>... --model <model>]; and when that
    command fails, [run] returns Failed at once, with a message that names
    the space and carries the error. *)
Theorem C5_create_failure existing pre name d post l (w w0 w1 w2 : W) t0 t1 r :
  configured_spaces client = inr (pre ++ (name, PDict d) :: post) ->
  existing_spaces B model w = (inr existing, w0, t0) ->
  ensure_spaces B model existing pre w0 = (inr None, w1, t1) ->
  dict_lookup d "subnets" = Some (PList l) -> l ≠ [] ->
  py_str_in name existing = false ->
  subprocess_run B
    (PStr "juju" :: PStr "add-space" :: PStr name :: l ++ [PStr "--model"; PStr model])
    w1 = (r, w2) ->
  ∃ res w' t',
    run B client model w =
      (res, w',
       t0 ++ t1 ++
       Ev (SubprocessRun
             (PStr "juju" :: PStr "add-space" :: PStr name :: l ++
              [PStr "--model"; PStr model]))
          (ran r) :: t') ∧
    ∀ e, r = inl e ->
      res = inr (mkResult FAILED
                   (Some ("Failed to ensure space " +:+ name +:+ ": " +:+ exn_str e))) ∧
      w' = w2 ∧ t' = [].
Proof.
  intros Hitems Hquery Hpre Hd Hl Hin Hrun.
  pose proof (subnets_of_list d l Hd Hl) as Hsub.
  set (spec := PDict d) in *.
  change (SubprocessRun _) with (add_space_call model name l).
  destruct (configured_spaces_answer _ Hitems) as [spaces Hspaces].
  destruct (run_reconciles spaces _ existing w w0 t0 Hitems Hspaces Hquery)
    as [Hpy ->].
  pose proof (ensure_space_create existing name spec l w1 w2 r Hsub Hl Hin Hrun)
    as Hone.
  pose proof (ensure_spaces_app existing pre ((name, spec) :: post) w0 w1 t1 Hpre)
    as Hloop.
  rewrite (ensure_spaces_cons existing name spec post w1 w2 _ _ Hone) in Hloop.
  destruct r as [e|out].
  - rewrite (reconcile_returned spaces _ existing w0 w2 _ _ Hpy Hloop).
    eexists _, _, []. split.
    + rewrite app_nil_r. reflexivity.
    + intros e' [= <-]. auto.
  - destruct (ensure_spaces B model existing post w2) as [[r3 w3] t3].
    unfold reconcile. rewrite Hpy, bind_lift_returned. unfold Py.bind at 1.
    rewrite Hloop.
    destruct r3 as [e3|[res3|]].
    + eexists _, _, _. split; [|discriminate].
      simpl. reflexivity.
    + eexists _, _, _. split; [|discriminate].
      unfold Py.ret. simpl. rewrite <- ?app_assoc. reflexivity.
    + destruct ((set_default_space B model ;;; Py.ret (mkResult COMPLETED None)) w3)
        as [[r4 w4] t4].
      eexists _, _, _. split; [|discriminate].
      simpl. rewrite <- ?app_assoc. reflexivity.
Qed.

(** C4.  When the loop comes to a configured space whose entry
    [subnets] is a list that is not empty and whose name is among the live
    spaces, [run] issues the command
    [juju set-space-subnets <name> <subnet>... --model <model>]; whatever
    comes of that command, also when it raises, the loop goes on with the
    spaces that follow, and when none of those makes [run] fail the result
    is Completed. *)
Theorem C4_update_is_best_effort existing pre name d post l
    (w w0 w1 w2 w3 : W) t0 t1 t3 r r3 :
  configured_spaces client = inr (pre ++ (name, PDict d) :: post) ->
  existing_spaces B model w = (inr existing, w0, t0) ->
  ensure_spaces B model existing pre w0 = (inr None, w1, t1) ->
  dict_lookup d "subnets" = Some (PList l) -> l ≠ [] ->
  py_str_in name existing = true ->
  subprocess_run B
    (PStr "juju" :: PStr "set-space-subnets" :: PStr name :: l ++
     [PStr "--model"; PStr model])
    w1 = (r, w2) ->
  ensure_spaces B model existing post w2 = (r3, w3, t3) ->
  let update :=
    Ev (SubprocessRun
          (PStr "juju" :: PStr "set-space-subnets" :: PStr name :: l ++
           [PStr "--model"; PStr model]))
       (ran r) in
  ensure_spaces B model existing (pre ++ (name, PDict d) :: post) w0 =
    (r3, w3, t1 ++ update :: t3) ∧
  (r3 = inr None ->
   ∃ w' t',
     run B client model w =
       (inr (mkResult COMPLETED None), w', t0 ++ t1 ++ update :: t3 ++ t')).
Proof.
  intros Hitems Hquery Hpre Hd Hl Hin Hrun Hpost update.
  pose proof (subnets_of_list d l Hd Hl) as Hsub.
  set (spec := PDict d) in *.
  change update with (Ev (set_space_subnets_call model name l) (ran r)).
  clear update.
  pose proof (ensure_space_update existing name spec l w1 w2 r Hsub Hl Hin Hrun)
    as Hone.
  pose proof (ensure_spaces_app existing pre ((name, spec) :: post) w0 w1 t1 Hpre)
    as Hloop.
  rewrite (ensure_spaces_cons existing name spec post w1 w2 _ _ Hone), Hpost in Hloop.
  simpl in Hloop. split; [exact Hloop|].
  intros ->.
  destruct (configured_spaces_answer _ Hitems) as [spaces Hspaces].
  destruct (run_reconciles spaces _ existing w w0 t0 Hitems Hspaces Hquery)
    as [Hpy ->].
  destruct (subprocess_run B (default_space_cmd model) w3) as [r4 w4] eqn:Hdefault.
  rewrite (reconcile_completed spaces _ existing w0 w3 w4 _ r4 Hpy Hloop Hdefault).
  eexists _, _. simpl. rewrite <- ?app_assoc. reflexivity.
Qed.

(** C8, as the code has it.  Once the live spaces have been read and
    the loop over the configured spaces has ended without a failed
    creation, [run] issues the command that sets the default space, as
    its last call, whatever the loop did (spaces created, updated, left
    alone, updates that failed); whatever comes of that command, also
    when it raises, [run] returns Completed. *)
Theorem C8_default_space items existing (w w0 w1 w2 : W) t0 t1 r :
  configured_spaces client = inr items ->
  existing_spaces B model w = (inr existing, w0, t0) ->
  ensure_spaces B model existing items w0 = (inr None, w1, t1) ->
  subprocess_run B (default_space_cmd model) w1 = (r, w2) ->
  run B client model w =
    (inr (mkResult COMPLETED None), w2,
     t0 ++ t1 ++ [Ev (default_space_call model) (ran r)]).
Proof. exact (run_completed items existing w w0 w1 w2 t0 t1 r). Qed.


End Spaces.

Lemma C6_query_failure_witness :
  EnsureJujuSpacesStep.run Scripted.backend Examples.management_answers "openstack"
    Examples.unreachable =
    (inr (mkResult FAILED
            (Some "Unable to read model spaces: Command returned non-zero exit status 1.")),
     Scripted.World [] [],
     [Ev (spaces_query "openstack") (Raised Live.called_process_error)]).
Proof.
  apply (C6_query_failure Scripted.backend Examples.management_answers "openstack"
           (PDict [("management", Examples.management)]) Examples.unreachable
           (Scripted.World [] []) Live.called_process_error); reflexivity.
Defined.

Lemma C5_create_failure_witness :
  EnsureJujuSpacesStep.run Scripted.backend Examples.management_answers "openstack"
    Examples.refuses_creation =
    (inr (mkResult FAILED
            (Some "Failed to ensure space management: Command returned non-zero exit status 1.")),
     Scripted.World [] [],
     [Ev (SubprocessRun [PStr "juju"; PStr "spaces"; PStr "--format"; PStr "json";
                         PStr "--model"; PStr "openstack"])
         (Output (Scripted.spaces_text []));
      Ev (SubprocessRun [PStr "juju"; PStr "add-space"; PStr "management";
                         PStr "10.0.0.0/24"; PStr "--model"; PStr "openstack"])
         (Raised Live.called_process_error)]).
Proof.
  destruct (C5_create_failure Scripted.backend Examples.management_answers "openstack"
              [] [] "management" [("subnets", PList [PStr "10.0.0.0/24"])] []
              [PStr "10.0.0.0/24"]
              Examples.refuses_creation (Scripted.World [None] [])
              (Scripted.World [None] []) (Scripted.World [] [])
              [Ev (spaces_query "openstack") (Output (Scripted.spaces_text []))] []
              (inl Live.called_process_error)
              eq_refl eq_refl eq_refl eq_refl ltac:(discriminate) eq_refl eq_refl)
    as (res & w' & t' & Hrun & Hfailed).
  destruct (Hfailed _ eq_refl) as (-> & -> & ->). exact Hrun.
Defined.

Lemma C4_update_is_best_effort_witness :
  ∃ w' t',
    EnsureJujuSpacesStep.run Scripted.backend Examples.management_answers "openstack"
      Examples.refuses_update =
      (inr (mkResult COMPLETED None), w',
       [Ev (spaces_query "openstack") (Output (Scripted.spaces_text ["management"]))] ++
       [] ++
       Ev (SubprocessRun [PStr "juju"; PStr "set-space-subnets"; PStr "management";
                          PStr "10.0.0.0/24"; PStr "--model"; PStr "openstack"])
          (Raised Live.called_process_error) :: [] ++ t').
Proof.
  apply (C4_update_is_best_effort Scripted.backend Examples.management_answers
           "openstack" [PStr "management"] [] "management"
           [("subnets", PList [PStr "10.0.0.0/24"])] []
           [PStr "10.0.0.0/24"]
           Examples.refuses_update (Scripted.World [None; None] [])
           (Scripted.World [None; None] []) (Scripted.World [None] [])
           (Scripted.World [None] [])
           [Ev (spaces_query "openstack") (Output (Scripted.spaces_text ["management"]))]
           [] [] (inl Live.called_process_error) (inr None)
           eq_refl eq_refl eq_refl eq_refl ltac:(discriminate) eq_refl eq_refl eq_refl).
  reflexivity.
Defined.

Lemma C8_default_space_witness :
  EnsureJujuSpacesStep.run Scripted.backend Examples.management_answers "openstack"
    Examples.refuses_update =
    (inr (mkResult COMPLETED None), Scripted.World [] [],
     [Ev (spaces_query "openstack") (Output (Scripted.spaces_text ["management"]))] ++
     [Ev (set_space_subnets_call "openstack" "management" [PStr "10.0.0.0/24"])
         (Raised Live.called_process_error)] ++
     [Ev (default_space_call "openstack") (Raised Live.called_process_error)]).
Proof.
  apply (C8_default_space Scripted.backend Examples.management_answers "openstack"
           [("management", Examples.management)] [PStr "management"]
           Examples.refuses_update (Scripted.World [None; None] [])
           (Scripted.World [None] []) (Scripted.World [] [])
           _ _ (inl Live.called_process_error)); reflexivity.
Defined.

(** C8 as stated fails: the default space is not set in every invocation.
    Where the controller refuses to create the space, [run] returns Failed
    after the query and the refused creation, and the command that sets
    the default space is not among its calls. *)
Lemma C8_counterexample :
  EnsureJujuSpacesStep.run Scripted.backend Examples.management_answers "openstack"
    Examples.refuses_creation =
    (inr (mkResult FAILED
            (Some "Failed to ensure space management: Command returned non-zero exit status 1.")),
     Scripted.World [] [],
     [Ev (spaces_query "openstack") (Output (Scripted.spaces_text []));
      Ev (add_space_call "openstack" "management" [PStr "10.0.0.0/24"])
         (Raised Live.called_process_error)]) ∧
  spaces_query "openstack" ≠ default_space_call "openstack" ∧
  add_space_call "openstack" "management" [PStr "10.0.0.0/24"]
    ≠ default_space_call "openstack".
Proof. split; [reflexivity | split; discriminate]. Qed.

(** ** Pools *)

Section Pools.
Import EnsureMetalLBIsolationStep.
Context {W : Type} (B : Backend W).
Variables (METALLB_NS annotation : string).
Variable client : gmap string pyval.
Variable model : string.

Lemma create_or_replace_applied kube what res name body (w : W) :
  ∃ r w' t,
    create_or_replace B METALLB_NS kube what res name body w = (r, w', t) ∧
    applied METALLB_NS what res name body r t.
Proof.
  unfold create_or_replace, create, replace, Py.try_except, Py.perform, Py.raise.
  destruct kube as [k|].
  - destruct (kube_create B body w) as [[e|[]] w1].
    + destruct (kube_replace B res name METALLB_NS body w1) as [[re|[]] w2];
        simpl; eexists _, _, _; (split; [reflexivity|constructor]).
    + eexists _, _, _. split; [reflexivity|constructor].
  - simpl. eexists _, _, _. split; [reflexivity|constructor].
Qed.

Lemma pool_is_not_advertisement ρ ρ' c :
  applies IPAddressPool (pool_name ρ) c -> ¬ applies L2Advertisement (adv_name ρ') c.
Proof. unfold applies. intros -> [=]. Qed.

Lemma roles_apart ρ ρ' c :
  ρ ≠ ρ' -> pool_phase_call ρ c -> ¬ pool_phase_call ρ' c.
Proof.
  unfold pool_phase_call, applies. intros Hne [H|H] [H'|H']; rewrite H in H';
    destruct ρ, ρ'; try congruence; discriminate.
Qed.

Lemma pool_phase_is_not_annotation ρ c :
  pool_phase_call ρ c -> ¬ annotation_call c.
Proof.
  unfold pool_phase_call, applies. intros [H|H]; destruct c; simpl in *;
    try discriminate; tauto.
Qed.

(** The calls of the block of a role are calls for the pool and the
    advertisement of that role; and when the replacement of the pool
    raises, the block raises and has not touched the advertisement. *)
Lemma ensure_role_calls kube ρ range (w w' : W) r t :
  ensure_role B METALLB_NS kube ρ range w = (r, w', t) ->
  Forall (λ ev, pool_phase_call ρ (ev_call ev)) t ∧
  ∀ body re,
    Ev (KubeReplace IPAddressPool (pool_name ρ) METALLB_NS body) (Raised re) ∈ t ->
    r = inl (failed_to_apply "IPAddressPool" (pool_name ρ) re) ∧
    Forall (λ ev, ¬ applies L2Advertisement (adv_name ρ) (ev_call ev)) t.
Proof.
  unfold ensure_role. destruct (truthy range).
  2: { intros [= <- <- <-]. split; [constructor|]. intros ? ? Hin. inversion Hin. }
  unfold _ensure_pool, _ensure_l2adv, Py.bind, Py.lift.
  destruct (addresses range) as [e|addrs].
  { intros [= <- <- <-]. split; [constructor|]. intros ? ? Hin. inversion Hin. }
  destruct (create_or_replace_applied kube "IPAddressPool" IPAddressPool (pool_name ρ)
              (pool_body METALLB_NS (pool_name ρ) addrs) w)
    as (r1 & w1 & t1 & -> & A1).
  destruct r1 as [e1|[]].
  - intros [= <- <- <-]. inversion A1; subst; simpl.
    + split; [repeat constructor; left; reflexivity|].
      intros body re' Hin. apply elem_of_cons in Hin as [[=]|Hin].
      apply elem_of_cons in Hin as [[= -> ->]|Hin]; [|inversion Hin].
      split; [reflexivity|].
      repeat (apply List.Forall_cons; [intros [=]|]). constructor.
    + split; [constructor|]. intros ? ? Hin. inversion Hin.
  - destruct (create_or_replace_applied kube "L2Advertisement" L2Advertisement
                (adv_name ρ) (l2adv_body METALLB_NS (adv_name ρ) [pool_name ρ]) w1)
      as (r2 & w2 & t2 & -> & A2).
    intros [= <- <- <-]. split.
    + apply Forall_app. split.
      * inversion A1; subst; repeat constructor; left; reflexivity.
      * inversion A2; subst; repeat constructor; right; reflexivity.
    + intros body re Hin. exfalso. apply elem_of_app in Hin as [Hin|Hin].
      * inversion A1; subst;
          repeat (apply elem_of_cons in Hin as [[=]|Hin]); inversion Hin.
      * inversion A2; subst;
          repeat (apply elem_of_cons in Hin as [[=]|Hin]); inversion Hin.
Qed.

Lemma ensure_role_absent kube ρ range (w : W) :
  truthy range = false -> ensure_role B METALLB_NS kube ρ range w = (inr tt, w, []).
Proof. unfold ensure_role. intros ->. reflexivity. Qed.

Lemma apply_pools_roles kube ranges (w : W) :
  _ranges_from_answers client = inr ranges ->
  apply_pools B METALLB_NS client kube w =
    (ensure_role B METALLB_NS kube Public (fst ranges) ;;;
     ensure_role B METALLB_NS kube Internal (snd ranges)) w.
Proof. intros H. unfold apply_pools. rewrite H, bind_lift_returned. reflexivity. Qed.

(** A call for the pool of a role, in a block, is in the block of that
    role. *)
Lemma replaced_in_block ρ ρ' body resp t :
  Forall (λ ev, pool_phase_call ρ' (ev_call ev)) t ->
  Ev (KubeReplace IPAddressPool (pool_name ρ) METALLB_NS body) resp ∈ t ->
  ρ = ρ'.
Proof.
  intros Hall Hin. rewrite Forall_forall in Hall. specialize (Hall _ Hin).
  destruct ρ, ρ'; try reflexivity; exfalso;
    destruct Hall as [H|H]; discriminate H.
Qed.

Lemma other_block ρ ρ' t :
  ρ ≠ ρ' ->
  Forall (λ ev, pool_phase_call ρ' (ev_call ev)) t ->
  Forall (λ ev, ¬ pool_phase_call ρ (ev_call ev)) t.
Proof.
  intros Hne Hall. apply (Forall_impl _ _ _ Hall).
  intros ev H. apply (roles_apart ρ' ρ); auto.
Qed.

Lemma not_advertised ρ t :
  Forall (λ ev, ¬ pool_phase_call ρ (ev_call ev)) t ->
  Forall (λ ev, ¬ applies L2Advertisement (adv_name ρ) (ev_call ev)) t.
Proof.
  intros Hall. apply (Forall_impl _ _ _ Hall).
  intros ev H Hadv. apply H. right. exact Hadv.
Qed.

(** The calls of the pool phase. *)
Lemma apply_pools_calls kube (w w' : W) r t :
  apply_pools B METALLB_NS client kube w = (r, w', t) ->
  Forall (λ ev, ∃ ρ, pool_phase_call ρ (ev_call ev)) t ∧
  (∀ ρ body re,
     Ev (KubeReplace IPAddressPool (pool_name ρ) METALLB_NS body) (Raised re) ∈ t ->
     r = inl (failed_to_apply "IPAddressPool" (pool_name ρ) re) ∧
     Forall (λ ev, ¬ applies L2Advertisement (adv_name ρ) (ev_call ev)) t) ∧
  (∀ ρ ranges,
     _ranges_from_answers client = inr ranges ->
     truthy (range_of ρ ranges) = false ->
     Forall (λ ev, ¬ pool_phase_call ρ (ev_call ev)) t).
Proof.
  destruct (_ranges_from_answers client) as [e|ranges] eqn:Hranges.
  { unfold apply_pools. rewrite Hranges. intros [= <- <- <-].
    split; [constructor|]. split; [|constructor]. intros ? ? ? Hin. inversion Hin. }
  rewrite (apply_pools_roles kube ranges w Hranges). unfold Py.bind.
  destruct (ensure_role B METALLB_NS kube Public (fst ranges) w)
    as [[rp wp] tp] eqn:Hp.
  destruct (ensure_role_calls kube Public _ w wp rp tp Hp) as [Pall Pfail].
  assert (Hwrap : ∀ ρ t0, Forall (λ ev, pool_phase_call ρ (ev_call ev)) t0 ->
                          Forall (λ ev, ∃ ρ, pool_phase_call ρ (ev_call ev)) t0).
  { intros ρ t0 Hall. apply (Forall_impl _ _ _ Hall). eauto. }
  destruct rp as [e|[]].
  - intros [= <- <- <-]. split; [eauto|]. split.
    + intros ρ body re Hin.
      rewrite (replaced_in_block ρ Public body _ tp Pall Hin) in Hin |- *. eauto.
    + intros ρ ranges' [= <-] Habsent. destruct ρ.
      * simpl in Habsent. rewrite (ensure_role_absent _ _ _ _ Habsent) in Hp.
        discriminate Hp.
      * apply (other_block Internal Public); [discriminate|exact Pall].
  - destruct (ensure_role B METALLB_NS kube Internal (snd ranges) wp)
      as [[ri wi] ti] eqn:Hi.
    destruct (ensure_role_calls kube Internal _ wp wi ri ti Hi) as [Iall Ifail].
    intros [= <- <- <-]. split; [apply Forall_app; eauto|]. split.
    + intros ρ body re Hin. apply elem_of_app in Hin as [Hin|Hin].
      * rewrite (replaced_in_block ρ Public body _ tp Pall Hin) in Hin.
        destruct (Pfail _ _ Hin) as [[=] _].
      * rewrite (replaced_in_block ρ Internal body _ ti Iall Hin) in Hin |- *.
        destruct (Ifail _ _ Hin) as [-> Hno]. split; [reflexivity|].
        apply Forall_app. split; [|exact Hno].
        apply not_advertised, (other_block Internal Public); [discriminate|exact Pall].
    + intros ρ ranges' [= <-] Habsent. apply Forall_app. destruct ρ; simpl in Habsent.
      * rewrite (ensure_role_absent _ _ _ _ Habsent) in Hp. simplify_eq.
        split; [constructor|].
        apply (other_block Public Internal); [discriminate|exact Iall].
      * rewrite (ensure_role_absent _ _ _ _ Habsent) in Hi. simplify_eq.
        split; [|constructor].
        apply (other_block Internal Public); [discriminate|exact Pall].
Qed.

(** *** The annotation phase *)

Lemma annotate_apps_calls existing apps (w w' : W) r t :
  annotate_apps B annotation existing apps w = (r, w', t) ->
  Forall (λ ev, ∃ args, ev_call ev = JujuCli args false) t ∧
  (r = inr tt ->
   ∀ app pool, (app, pool) ∈ apps -> app ∈ existing ->
     Ev (JujuCli (annotation_args annotation app pool) false) Done ∈ t).
Proof.
  revert w w' r t. induction apps as [|[app0 pool0] apps IH]; intros w w' r t.
  - intros [= <- <- <-]. split; [constructor|]. intros _ ? ? Hin. inversion Hin.
  - simpl. unfold Py.bind. case_bool_decide as Hex.
    + unfold Py.ret.
      destruct (annotate_apps B annotation existing apps w) as [[r1 w1] t1] eqn:Hrest.
      destruct (IH _ _ _ _ Hrest) as [Hall Hdone].
      intros [= <- <- <-]. split; [exact Hall|].
      intros Hr app pool Hin Happ. apply elem_of_cons in Hin as [[= -> ->]|Hin].
      * contradiction.
      * simpl. eauto.
    + unfold annotate_app, Py.perform.
      destruct (juju_cli B (annotation_args annotation app0 pool0) false w)
        as [[e|[]] w0].
      * intros [= <- <- <-]. split; [repeat constructor; eauto|discriminate].
      * destruct (annotate_apps B annotation existing apps w0) as [[r1 w1] t1] eqn:Hrest.
        destruct (IH _ _ _ _ Hrest) as [Hall Hdone].
        intros [= <- <- <-]. split; [constructor; eauto|].
        intros Hr app pool Hin Happ. apply elem_of_cons in Hin as [[= -> ->]|Hin].
        -- left.
        -- right. eauto.
Qed.

Lemma annotate_calls (w w' : W) r t :
  _annotate_traefik_services_via_juju B annotation model w = (r, w', t) ->
  Forall (λ ev, annotation_call (ev_call ev)) t ∧
  (r = inr tt ->
   ∀ names, Ev (GetApplicationNames model) (Names names) ∈ t ->
   ∀ app pool, (app, pool) ∈ TRAEFIK_APPS -> app ∈ names ->
     Ev (JujuCli (annotation_args annotation app pool) false) Done ∈ t).
Proof.
  unfold _annotate_traefik_services_via_juju, Py.bind, Py.perform.
  destruct (juju_helper_load B w) as [[e|[]] w0].
  { intros [= <- <- <-]. split; [repeat constructor|discriminate]. }
  destruct (get_application_names B model w0) as [[e|names0] w1].
  { intros [= <- <- <-]. split; [repeat constructor|discriminate]. }
  destruct (annotate_apps B annotation (list_to_set names0) TRAEFIK_APPS w1)
    as [[r1 w2] t1] eqn:Hloop.
  destruct (annotate_apps_calls _ _ _ _ _ _ Hloop) as [Hall Hdone].
  intros [= <- <- <-]. split.
  - repeat constructor. simpl. apply (Forall_impl _ _ _ Hall).
    intros ev [args ->]. exact I.
  - intros Hr names Hnames app pool Hin Happ. simpl in Hnames |- *.
    apply elem_of_cons in Hnames as [[=]|Hnames].
    apply elem_of_cons in Hnames as [[= ->]|Hnames].
    + right. right. apply Hdone; auto. apply elem_of_list_to_set. exact Happ.
    + rewrite Forall_forall in Hall. destruct (Hall _ Hnames) as [args [=]].
Qed.

Lemma run_phases kube (w : W) :
  run B METALLB_NS annotation client model kube w =
    match apply_pools B METALLB_NS client kube w with
    | (inl e, w1, t1) => (inr (mkResult FAILED (Some (exn_str e))), w1, t1)
    | (inr _, w1, t1) =>
        match _annotate_traefik_services_via_juju B annotation model w1 with
        | (inl e, w2, t2) => (inr (mkResult FAILED (Some (exn_str e))), w2, t1 ++ t2)
        | (inr _, w2, t2) => (inr (mkResult COMPLETED None), w2, t1 ++ t2)
        end
    end.
Proof.
  unfold run, Py.try_except, Py.bind, Py.ret.
  destruct (apply_pools B METALLB_NS client kube w) as [[[e|[]] w1] t1]; simpl.
  - rewrite app_nil_r. reflexivity.
  - destruct (_annotate_traefik_services_via_juju B annotation model w1)
      as [[[e|[]] w2] t2]; simpl; rewrite ?app_nil_r; reflexivity.
Qed.

(** *** The claims about the pools *)

(** C3.  For a role whose resolved range is set: when, in an invocation
    of [run], the creation of the pool of the role raises and its
    replacement raises too, [run] returns Failed, with the message of
    [_ensure_pool], and the invocation has made no call for the
    advertisement of the role and no call of the annotation phase. *)
Theorem C3_pool_failure kube ρ ranges addrs (w w' : W) r t e1 e2 :
  _ranges_from_answers client = inr ranges ->
  truthy (range_of ρ ranges) = true ->
  addresses (range_of ρ ranges) = inr addrs ->
  run B METALLB_NS annotation client model kube w = (r, w', t) ->
  Ev (KubeCreate (pool_body METALLB_NS (pool_name ρ) addrs)) (Raised e1) ∈ t ->
  Ev (KubeReplace IPAddressPool (pool_name ρ) METALLB_NS
        (pool_body METALLB_NS (pool_name ρ) addrs)) (Raised e2) ∈ t ->
  r = inr (mkResult FAILED
             (Some ("Failed to apply IPAddressPool " +:+ pool_name ρ +:+ ": "
                    +:+ exn_str e2))) ∧
  ∀ ev, ev ∈ t ->
    ¬ applies L2Advertisement (adv_name ρ) (ev_call ev) ∧
    ¬ annotation_call (ev_call ev).
Proof.
  intros _ _ _ Hrun _ Hreplace. rewrite run_phases in Hrun.
  destruct (apply_pools B METALLB_NS client kube w) as [[[e|[]] w1] t1] eqn:Hpools;
    destruct (apply_pools_calls kube w w1 _ t1 Hpools) as (Hall & Hfail & _).
  - injection Hrun as <- <- <-.
    destruct (Hfail ρ _ _ Hreplace) as [[= ->] Hno]. rewrite Forall_forall in Hall, Hno.
    split; [reflexivity|]. intros ev Hev. split; [auto|].
    destruct (Hall ev Hev) as [ρ' Hcall].
    exact (pool_phase_is_not_annotation ρ' _ Hcall).
  - exfalso.
    destruct (_annotate_traefik_services_via_juju B annotation model w1)
      as [[ra w2] t2] eqn:Hannotate.
    destruct (annotate_calls w1 w2 ra t2 Hannotate) as [Hcalls _].
    assert (Hin : Ev (KubeReplace IPAddressPool (pool_name ρ) METALLB_NS
                        (pool_body METALLB_NS (pool_name ρ) addrs)) (Raised e2)
                  ∈ t1 ++ t2) by (destruct ra as [?|[]]; simplify_eq; exact Hreplace).
    apply elem_of_app in Hin as [Hin|Hin].
    + destruct (Hfail ρ _ _ Hin) as [[=] _].
    + rewrite Forall_forall in Hcalls. exact (Hcalls _ Hin).
Qed.

(** When the loop over the applications raises, a [juju config] call
    has raised. *)
Lemma annotate_apps_raised existing apps (w w' : W) e t :
  annotate_apps B annotation existing apps w = (inl e, w', t) ->
  ∃ args, Ev (JujuCli args false) (Raised e) ∈ t.
Proof.
  revert w w' t. induction apps as [|[app0 pool0] apps IH]; intros w w' t.
  - intros [=].
  - simpl. unfold Py.bind. case_bool_decide as Hex.
    + unfold Py.ret.
      destruct (annotate_apps B annotation existing apps w) as [[r1 w1] t1] eqn:Hrest.
      intros [= -> <- <-]. exact (IH _ _ _ Hrest).
    + unfold annotate_app, Py.perform.
      destruct (juju_cli B (annotation_args annotation app0 pool0) false w)
        as [[e0|[]] w0].
      * intros [= <- <- <-]. eexists. left.
      * destruct (annotate_apps B annotation existing apps w0) as [[r1 w1] t1] eqn:Hrest.
        intros [= -> <- <-]. destruct (IH _ _ _ Hrest) as [args Hin].
        exists args. right. exact Hin.
Qed.

(** When the annotation phase raises after the model has reported its
    applications, a [juju config] call has raised. *)
Lemma annotate_raised (w w' : W) e t names :
  _annotate_traefik_services_via_juju B annotation model w = (inl e, w', t) ->
  Ev (GetApplicationNames model) (Names names) ∈ t ->
  ∃ args, Ev (JujuCli args false) (Raised e) ∈ t.
Proof.
  unfold _annotate_traefik_services_via_juju, Py.bind, Py.perform.
  destruct (juju_helper_load B w) as [[e0|[]] w0].
  { intros [= <- <- <-] Hin. repeat (apply elem_of_cons in Hin as [[=]|Hin]).
    inversion Hin. }
  destruct (get_application_names B model w0) as [[e0|names0] w1].
  { intros [= <- <- <-] Hin. repeat (apply elem_of_cons in Hin as [[=]|Hin]).
    inversion Hin. }
  destruct (annotate_apps B annotation (list_to_set names0) TRAEFIK_APPS w1)
    as [[r1 w2] t1] eqn:Hloop.
  intros [= -> <- <-] _. destruct (annotate_apps_raised _ _ _ _ _ _ Hloop) as [args Hin].
  exists args. simpl. right. right. exact Hin.
Qed.

(** C10, as the code has it.  In an invocation of [run] that reaches the
    annotation phase, where the model reports its applications and no
    [juju config] call raises, every application of the table
    (traefik, traefik-public, traefik-rgw) that the model has is annotated:
    [juju config <app> kubernetes-service-annotations={<annotation>:
    <pool>}] is called for it, without JSON output, with the pool the
    table gives it.  This also holds for an application whose pool belongs
    to a role whose resolved range is not set, and in that case the
    invocation has made no call for that pool: the application is
    annotated with the name of a pool that the invocation did not
    apply. *)
Theorem C10_annotation_ignores_ranges kube (w w' : W) r t names app pool :
  run B METALLB_NS annotation client model kube w = (r, w', t) ->
  Ev (GetApplicationNames model) (Names names) ∈ t ->
  (∀ args json_format e, Ev (JujuCli args json_format) (Raised e) ∉ t) ->
  (app, pool) ∈ traefik_pools ->
  app ∈ names ->
  Ev (JujuCli [Word "config"; Word app;
               Assign "kubernetes-service-annotations" (PDict [(annotation, PStr pool)])]
              false) Done ∈ t ∧
  ∀ ρ ranges,
    pool = pool_name ρ ->
    _ranges_from_answers client = inr ranges ->
    truthy (range_of ρ ranges) = false ->
    ∀ ev, ev ∈ t -> ¬ applies IPAddressPool (pool_name ρ) (ev_call ev).
Proof.
  intros Hrun Hnames Hquiet Hentry Happ. rewrite run_phases in Hrun.
  destruct (apply_pools B METALLB_NS client kube w) as [[[e|[]] w1] t1] eqn:Hpools;
    destruct (apply_pools_calls kube w w1 _ t1 Hpools) as (Hall & _ & Habsent);
    rewrite Forall_forall in Hall.
  { exfalso. injection Hrun as <- <- <-.
    destruct (Hall _ Hnames) as [ρ [H|H]]; discriminate H. }
  destruct (_annotate_traefik_services_via_juju B annotation model w1)
    as [[ra w2] t2] eqn:Hannotate.
  assert (Ht : t = t1 ++ t2) by (destruct ra as [?|[]]; simplify_eq; reflexivity).
  subst t. clear Hrun.
  assert (Hlisted : Ev (GetApplicationNames model) (Names names) ∈ t2).
  { apply elem_of_app in Hnames as [Hin|Hin]; [|exact Hin].
    destruct (Hall _ Hin) as [ρ [H|H]]; discriminate H. }
  destruct ra as [e|[]].
  { exfalso. destruct (annotate_raised w1 w2 e t2 names Hannotate Hlisted) as [args Hin].
    apply (Hquiet args false e). apply elem_of_app. right. exact Hin. }
  destruct (annotate_calls w1 w2 _ t2 Hannotate) as [Hcalls Hdone].
  rewrite Forall_forall in Hcalls. split.
  - apply elem_of_app. right.
    exact (Hdone eq_refl names Hlisted app pool Hentry Happ).
  - intros ρ ranges _ Hranges Hfalse ev Hev Hpool.
    apply elem_of_app in Hev as [Hev|Hev].
    + specialize (Habsent ρ ranges Hranges Hfalse). rewrite Forall_forall in Habsent.
      apply (Habsent ev Hev). left. exact Hpool.
    + specialize (Hcalls ev Hev). unfold applies in Hpool.
      destruct (ev_call ev); simpl in *; try discriminate; tauto.
Qed.

End Pools.

Lemma C3_pool_failure_witness :
  fst (fst (EnsureMetalLBIsolationStep.run Scripted.backend "metallb-system"
              "metallb.io/address-pool" Examples.public_only_answers "openstack"
              (Some KubeClient) Examples.refuses_pool)) =
    inr (mkResult FAILED
           (Some "Failed to apply IPAddressPool sunbeam-public-pool: 404 NotFound")) ∧
  ∀ ev,
    ev ∈ snd (EnsureMetalLBIsolationStep.run Scripted.backend "metallb-system"
                "metallb.io/address-pool" Examples.public_only_answers "openstack"
                (Some KubeClient) Examples.refuses_pool) ->
    ¬ applies L2Advertisement "sunbeam-public-adv" (ev_call ev) ∧
    ¬ annotation_call (ev_call ev).
Proof.
  apply (C3_pool_failure Scripted.backend "metallb-system" "metallb.io/address-pool"
           Examples.public_only_answers "openstack" (Some KubeClient) Public
           (PStr "10.1.0.0/24, 10.1.1.0/24", PNone) Examples.public_addresses
           Examples.refuses_pool (Scripted.World [] []) _ _
           Live.already_exists Live.not_found eq_refl eq_refl eq_refl eq_refl).
  - left.
  - right. left.
Defined.

Lemma C10_annotation_ignores_ranges_witness :
  let t := snd (EnsureMetalLBIsolationStep.run Live.backend "metallb-system"
                  "metallb.io/address-pool" Examples.public_only_answers "openstack"
                  (Some KubeClient) Examples.fresh) in
  Ev (JujuCli [Word "config"; Word "traefik";
               Assign "kubernetes-service-annotations"
                      (PDict [("metallb.io/address-pool", PStr "sunbeam-internal-pool")])]
              false) Done ∈ t ∧
  ∀ ev, ev ∈ t -> ¬ applies IPAddressPool "sunbeam-internal-pool" (ev_call ev).
Proof.
  destruct (C10_annotation_ignores_ranges Live.backend "metallb-system"
              "metallb.io/address-pool" Examples.public_only_answers "openstack"
              (Some KubeClient) Examples.fresh _ _ _ ["traefik"; "traefik-public"]
              "traefik" "sunbeam-internal-pool" eq_refl)
    as [Hannotated Hnot_applied].
  - repeat first [left | right].
  - intros args json_format e Hin.
    repeat (apply elem_of_cons in Hin as [[=]|Hin]). inversion Hin.
  - left.
  - left.
  - split; [exact Hannotated|].
    exact (Hnot_applied Internal (PStr "10.1.0.0/24, 10.1.1.0/24", PNone)
             eq_refl eq_refl eq_refl).
Defined.

(** C10 as stated fails: reaching the annotation phase does not mean that
    every application of the table that the model has is annotated.  The
    model has traefik and traefik-public; the [juju config] call for
    traefik raises, [run] returns Failed, and no call is made for
    traefik-public. *)
Lemma C10_counterexample :
  let names := ["traefik"; "traefik-public"] in
  let t :=
    [Ev (KubeCreate Examples.public_pool) Done;
     Ev (KubeCreate Examples.public_advertisement) Done;
     Ev JujuHelperLoad Done;
     Ev (GetApplicationNames "openstack") (Names names);
     Ev (JujuCli [Word "config"; Word "traefik";
                  Assign "kubernetes-service-annotations"
                         (PDict [("metallb.io/address-pool",
                                  PStr "sunbeam-internal-pool")])]
                 false)
        (Raised Live.called_process_error)] in
  EnsureMetalLBIsolationStep.run Scripted.backend "metallb-system"
    "metallb.io/address-pool" Examples.public_only_answers "openstack"
    (Some KubeClient) Examples.refuses_annotation =
    (inr (mkResult FAILED (Some "Command returned non-zero exit status 1.")),
     Scripted.World [] names, t) ∧
  ("traefik-public", "sunbeam-public-pool") ∈ traefik_pools ∧
  "traefik-public" ∈ names ∧
  ∀ args json_format resp,
    Ev (JujuCli args json_format) resp ∈ t -> args !! 1 ≠ Some (Word "traefik-public").
Proof.
  intros names t. split; [reflexivity|]. split; [right; left|]. split; [right; left|].
  intros args json_format resp Hin.
  repeat (apply elem_of_cons in Hin as [[=]|Hin]); [|inversion Hin].
  subst. discriminate.
Qed.

(** ** Running a step again *)

Section SpacesAgain.
Import EnsureJujuSpacesStep.
Context {W : Type} (B : Backend W).
Variable client : gmap string pyval.
Variable model : string.

(** A round that makes [run] return makes it return Failed. *)
Lemma ensure_space_returns existing name spec (w w' : W) res t :
  ensure_space B model existing name spec w = (inr (Some res), w', t) ->
  result_type res = FAILED.
Proof.
  unfold ensure_space, Py.bind, Py.lift.
  destruct (subnets_of spec) as [e|s]; [discriminate|].
  destruct (negb (truthy s)); [discriminate|].
  unfold Py.try_except at 1.
  destruct (py_str_in name existing).
  - unfold Py.bind, Py.ret.
    destruct (Py.try_except _ _ w) as [[[e|[]] w1] t1]; [|discriminate].
    intros [= <- _ _]. reflexivity.
  - unfold Py.bind, Py.ret.
    destruct (juju_space B model "add-space" name s w) as [[[e|out] w1] t1];
      [|discriminate].
    intros [= <- _ _]. reflexivity.
Qed.

Lemma ensure_spaces_returns existing items (w w' : W) res t :
  ensure_spaces B model existing items w = (inr (Some res), w', t) ->
  result_type res = FAILED.
Proof.
  revert w w' t. induction items as [|[name spec] items IH]; intros w w' t.
  - discriminate.
  - simpl. unfold Py.bind.
    destruct (ensure_space B model existing name spec w) as [[[e|[res0|]] w0] t0] eqn:Hone;
      [discriminate| |].
    + unfold Py.ret. intros [= <- _ _]. exact (ensure_space_returns _ _ _ _ _ _ _ Hone).
    + destruct (ensure_spaces B model existing items w0) as [[r1 w1] t1] eqn:Hrest.
      intros [= -> _ _]. exact (IH _ _ _ Hrest).
Qed.



End SpacesAgain.

Section LiveSpaces.
Import EnsureJujuSpacesStep.
Variable client : gmap string pyval.
Variable model : string.










End LiveSpaces.

Section LivePools.
Import EnsureMetalLBIsolationStep.
Variables (METALLB_NS annotation : string).
Variable client : gmap string pyval.
Variable model : string.










End LivePools.




(** ** More about the spaces step *)

Section SpacesMore.
Import EnsureJujuSpacesStep.
Context {W : Type} (B : Backend W).
Variable client : gmap string pyval.
Variable model : string.

(** [is_skip] only reads the answers: it makes no call and leaves the
    world as it is, whether it returns or raises; and what it returns is
    Skipped or Completed, never Failed. *)
Theorem spaces_is_skip_makes_no_call (w : W) :
  ∃ r, is_skip client w = (r, w, []) ∧
       ∀ res, r = inr res -> result_type res ≠ FAILED.
Proof.
  unfold is_skip.
  destruct (network_isolation client) as [e|ni].
  { rewrite bind_lift_raised. eexists. split; [reflexivity|discriminate]. }
  rewrite bind_lift_returned.
  destruct (py_get ni "enable_isolation") as [e|enable].
  { rewrite bind_lift_raised. eexists. split; [reflexivity|discriminate]. }
  rewrite bind_lift_returned. destruct (negb (truthy enable)).
  { eexists. split; [reflexivity|]. intros res [= <-]. discriminate. }
  destruct (py_get ni "spaces") as [e|spaces].
  { rewrite bind_lift_raised. eexists. split; [reflexivity|discriminate]. }
  rewrite bind_lift_returned. destruct (negb (truthy (py_or spaces (PDict [])))).
  - eexists. split; [reflexivity|]. intros res [= <-]. discriminate.
  - eexists. split; [reflexivity|]. intros res [= <-]. discriminate.
Qed.

(** [is_skip] returns Completed exactly when the enable flag is set and the
    mapping of spaces that [run] would go through is not empty. *)
Theorem spaces_is_skip_ready (w : W) (enable spaces : pyval) :
  spaces_enable_flag client = inr enable ->
  spaces_answer client = inr spaces ->
  fst (fst (is_skip client w)) = inr (mkResult COMPLETED None)
  ↔ truthy enable = true ∧ truthy spaces = true.
Proof.
  rewrite spaces_answer_read. unfold spaces_enable_flag, is_skip.
  destruct (network_isolation client) as [e|ni]; [discriminate|]. simpl.
  intros Henable Hspaces. rewrite bind_lift_returned, Henable, bind_lift_returned.
  destruct (py_get ni "spaces") as [e|v]; [discriminate|].
  simpl in Hspaces. injection Hspaces as <-.
  destruct (truthy enable); simpl.
  - rewrite bind_lift_returned. destruct (truthy (py_or v (PDict []))); simpl;
      split; intros H; try discriminate; try (destruct H; discriminate); auto.
  - split; [discriminate|]. intros [H _]. discriminate H.
Qed.

(** A round for a space whose subnets are empty, missing or null makes no
    call, and the loop goes on. *)
Lemma ensure_space_idle existing name spec s (w : W) :
  subnets_of spec = inr s -> truthy s = false ->
  ensure_space B model existing name spec w = (inr None, w, []).
Proof.
  intros Hs Hfalse. unfold ensure_space. rewrite Hs, bind_lift_returned, Hfalse.
  reflexivity.
Qed.

Lemma ensure_spaces_idle existing items (w : W) :
  (∀ name spec, (name, spec) ∈ items ->
     ∃ s, subnets_of spec = inr s ∧ truthy s = false) ->
  ensure_spaces B model existing items w = (inr None, w, []).
Proof.
  induction items as [|[name spec] items IH]; intros Hall; [reflexivity|].
  destruct (Hall name spec) as (s & Hs & Hfalse); [left|].
  rewrite (ensure_spaces_cons B model existing name spec items w w [] None
             (ensure_space_idle existing name spec s w Hs Hfalse)).
  rewrite IH; [reflexivity|]. intros n sp Hin. apply (Hall n sp). right. exact Hin.
Qed.

(** When no configured space has subnets, [run] queries the live spaces,
    sets the default space and returns Completed: it issues no command for
    any space. *)
Theorem spaces_without_subnets items existing (w w0 w1 : W) t0 r :
  configured_spaces client = inr items ->
  existing_spaces B model w = (inr existing, w0, t0) ->
  (∀ name spec, (name, spec) ∈ items ->
     ∃ s, subnets_of spec = inr s ∧ truthy s = false) ->
  subprocess_run B (default_space_cmd model) w0 = (r, w1) ->
  run B client model w =
    (inr (mkResult COMPLETED None), w1,
     t0 ++ [Ev (default_space_call model) (ran r)]).
Proof.
  intros Hitems Hquery Hidle Hdefault.
  exact (run_completed B client model items existing w w0 w0 w1 t0 [] r Hitems Hquery
           (ensure_spaces_idle existing items w0 Hidle) Hdefault).
Qed.

End SpacesMore.

Section SpacesCommands.
Import EnsureJujuSpacesStep.
Context {W : Type} (B : Backend W).
Variable client : gmap string pyval.
Variable model : string.

(** What a round of the loop comes to: at most one command, which is the
    update or the creation of the space of the round; it raises only when
    the subnets of the space cannot be read, and then before any call. *)
Lemma ensure_space_round existing name spec (w : W) :
  ∃ r w' t,
    ensure_space B model existing name spec w = (r, w', t) ∧
    (t = [] ∨
     ∃ l resp,
       t = [Ev (if py_str_in name existing
                then set_space_subnets_call model name l
                else add_space_call model name l) resp]) ∧
    match subnets_of spec with
    | inl e => r = inl e ∧ w' = w ∧ t = []
    | inr _ => ∃ o, r = inr o
    end.
Proof.
  unfold ensure_space. destruct (subnets_of spec) as [e|s].
  { rewrite bind_lift_raised. eexists _, _, _. split; [reflexivity|]. auto. }
  rewrite bind_lift_returned. destruct (truthy s); simpl.
  2: { eexists _, _, _. split; [reflexivity|]. split; [auto|eauto]. }
  unfold juju_space, Py.try_except, Py.bind, Py.lift, Py.ret, _juju, Py.perform.
  destruct (py_str_in name existing); destruct (py_unpack s) as [e|l]; simpl.
  - eexists _, _, _. split; [reflexivity|]. split; [auto|eauto].
  - destruct (subprocess_run B _ w) as [[e|out] w0]; simpl;
      eexists _, _, _; (split; [reflexivity|]); (split; [right; eauto|eauto]).
  - eexists _, _, _. split; [reflexivity|]. split; [auto|eauto].
  - destruct (subprocess_run B _ w) as [[e|out] w0]; simpl;
      eexists _, _, _; (split; [reflexivity|]); (split; [right; eauto|eauto]).
Qed.

(** The commands of the loop are commands for configured spaces, at most
    one for each. *)
Lemma ensure_spaces_commands existing items (w : W) :
  Forall (λ ev, space_command model existing items (ev_call ev))
         (snd (ensure_spaces B model existing items w)) ∧
  (length (snd (ensure_spaces B model existing items w)) ≤ length items)%nat.
Proof.
  revert w. induction items as [|[name spec] items IH]; intros w.
  - simpl. split; [constructor|lia].
  - simpl. unfold Py.bind.
    destruct (ensure_space_round existing name spec w)
      as (r & w0 & t0 & -> & Ht0 & _).
    assert (Hhead : Forall (λ ev, space_command model existing ((name, spec) :: items)
                                    (ev_call ev)) t0 ∧ (length t0 ≤ 1)%nat).
    { destruct Ht0 as [->|(l & resp & ->)]; [split; [constructor|simpl; lia]|].
      split; [|simpl; lia]. repeat constructor. exists name, spec, l.
      split; [left|reflexivity]. }
    destruct Hhead as [Hhead Hone].
    destruct r as [e|[res|]]; simpl; try (rewrite ?app_nil_r; split; [exact Hhead|lia]).
    destruct (IH w0) as [Hall Hlen].
    destruct (ensure_spaces B model existing items w0) as [[r1 w1] t1]. simpl in *.
    split.
    + apply Forall_app. split; [exact Hhead|].
      apply (Forall_impl _ _ _ Hall). intros ev (n & sp & l & Hin & Hc).
      exists n, sp, l. split; [right; exact Hin|exact Hc].
    + rewrite length_app. lia.
Qed.

(** When the answers cannot be read, [run] raises before any call. *)
Lemma run_unreadable e (w : W) :
  spaces_answer client = inl e -> run B client model w = (inl e, w, []).
Proof.
  rewrite spaces_answer_read. unfold run.
  destruct (network_isolation client) as [e0|ni]; simpl.
  { intros [= <-]. reflexivity. }
  rewrite bind_lift_returned.
  destruct (py_get ni "spaces") as [e1|v]; simpl; [|discriminate].
  intros [= <-]. reflexivity.
Qed.

(** The parts of the transcript of [run]: the query, the loop, the
    default space. *)
Lemma run_transcript (w : W) :
  ∃ tq tl td,
    snd (run B client model w) = tq ++ tl ++ td ∧
    (tq = [] ∨ ∃ resp, tq = [Ev (spaces_query model) resp]) ∧
    (tl = [] ∨
     ∃ items existing,
       configured_spaces client = inr items ∧
       fst (fst (existing_spaces B model w)) = inr existing ∧
       tl = snd (ensure_spaces B model existing items
                   (snd (fst (existing_spaces B model w))))) ∧
    (td = [] ∨ ∃ resp, td = [Ev (default_space_call model) resp]).
Proof.
  destruct (spaces_answer client) as [e|spaces] eqn:Hspaces.
  { rewrite (run_unreadable e w Hspaces). exists [], [], []. auto. }
  rewrite (run_after_query B client model spaces w Hspaces).
  destruct (existing_spaces_transcript B model w) as [resp Hquery].
  destruct (existing_spaces B model w) as [[[e|existing] w0] t0]; simpl in Hquery;
    subst t0; simpl fst; simpl snd.
  { exists [Ev (spaces_query model) resp], [], []. split; [reflexivity|]. split_and!; eauto. }
  unfold reconcile. destruct (py_items spaces) as [e|items] eqn:Hitems.
  { rewrite bind_lift_raised. exists [Ev (spaces_query model) resp], [], []. split; [reflexivity|]. split_and!; eauto. }
  rewrite bind_lift_returned. unfold Py.bind at 1.
  assert (Hconfigured : configured_spaces client = inr items).
  { unfold configured_spaces. rewrite Hspaces. exact Hitems. }
  destruct (ensure_spaces B model existing items w0) as [[rl wl] tl] eqn:Hloop.
  assert (Hloop' : tl = snd (ensure_spaces B model existing items w0))
    by (rewrite Hloop; reflexivity).
  destruct rl as [e|[res|]].
  - exists [Ev (spaces_query model) resp], tl, []. simpl. rewrite ?app_nil_r. split; [reflexivity|]. split_and!; eauto 10.
  - exists [Ev (spaces_query model) resp], tl, []. unfold Py.ret. simpl. rewrite ?app_nil_r.
    split; [reflexivity|]. split_and!; eauto 10.
  - destruct (subprocess_run B (default_space_cmd model) wl) as [r wd] eqn:Hdefault.
    unfold Py.bind, Py.ret. rewrite (set_default_space_ran B model wl wd r Hdefault).
    exists [Ev (spaces_query model) resp], tl, [Ev (default_space_call model) (ran r)].
    simpl. rewrite ?app_nil_r. split; [reflexivity|]. split_and!; eauto 10.
Qed.

(** Every command of [run] is a juju command that names the model: the
    step never acts on the controller's current model. *)
Theorem spaces_commands_target_model (w : W) :
  Forall (λ ev, ∃ cmd, ev_call ev = SubprocessRun cmd ∧ targets_model model cmd)
         (snd (run B client model w)).
Proof.
  destruct (run_transcript w) as (tq & tl & td & -> & Hq & Hl & Hd).
  apply Forall_app. split; [|apply Forall_app; split].
  - destruct Hq as [->|[resp ->]]; repeat constructor.
    eexists. split; [reflexivity|]. exists [PStr "spaces"; PStr "--format"; PStr "json"], [].
    reflexivity.
  - destruct Hl as [->|(items & existing & _ & _ & ->)]; [constructor|].
    destruct (ensure_spaces_commands existing items
                (snd (fst (existing_spaces B model w)))) as [Hall _].
    apply (Forall_impl _ _ _ Hall). intros ev (name & spec & l & _ & ->).
    destruct (py_str_in name existing); (eexists; split; [reflexivity|]).
    + exists (PStr "set-space-subnets" :: PStr name :: l), []. reflexivity.
    + exists (PStr "add-space" :: PStr name :: l), []. reflexivity.
  - destruct Hd as [->|[resp ->]]; repeat constructor.
    eexists. split; [reflexivity|].
    exists [PStr "model-config"], [PStr "default-space=management"]. reflexivity.
Qed.

(** [run] issues at most one command for each configured space, besides
    the query and the default space. *)
Theorem spaces_commands_bounded items (w : W) :
  configured_spaces client = inr items ->
  (length (snd (run B client model w)) ≤ length items + 2)%nat.
Proof.
  intros Hitems.
  destruct (run_transcript w) as (tq & tl & td & -> & Hq & Hl & Hd).
  rewrite !length_app.
  assert (length tq ≤ 1)%nat by (destruct Hq as [->|[resp ->]]; simpl; lia).
  assert (length td ≤ 1)%nat by (destruct Hd as [->|[resp ->]]; simpl; lia).
  assert (length tl ≤ length items)%nat.
  { destruct Hl as [->|(items' & existing & Hitems' & _ & ->)]; [simpl; lia|].
    rewrite Hitems in Hitems'. injection Hitems' as <-.
    apply ensure_spaces_commands. }
  lia.
Qed.

(** A space that is among the live spaces is never created, a space that
    is not is never updated, and no command is issued for a space that is
    not configured. *)
Theorem spaces_created_only_when_absent items existing (w w0 : W) t0 :
  configured_spaces client = inr items ->
  existing_spaces B model w = (inr existing, w0, t0) ->
  ∀ ev, ev ∈ snd (run B client model w) ->
    (∀ n l, ev_call ev = add_space_call model n l ->
       py_str_in n existing = false ∧ ∃ spec, (n, spec) ∈ items) ∧
    (∀ n l, ev_call ev = set_space_subnets_call model n l ->
       py_str_in n existing = true ∧ ∃ spec, (n, spec) ∈ items).
Proof.
  intros Hitems Hquery ev Hin.
  destruct (run_transcript w) as (tq & tl & td & Ht & Hq & Hl & Hd).
  rewrite Ht in Hin. apply elem_of_app in Hin as [Hin|Hin];
    [|apply elem_of_app in Hin as [Hin|Hin]].
  - destruct Hq as [->|[resp ->]]; [inversion Hin|].
    apply list_elem_of_singleton in Hin as ->.
    split; intros n l Hcall; unfold spaces_query, add_space_call,
      set_space_subnets_call, juju_cmd in Hcall; simpl in Hcall; discriminate Hcall.
  - destruct Hl as [->|(items' & existing' & Hitems' & Hexisting & ->)];
      [inversion Hin|].
    rewrite Hitems in Hitems'. injection Hitems' as <-.
    rewrite Hquery in Hexisting. injection Hexisting as <-.
    destruct (ensure_spaces_commands existing items
                (snd (fst (existing_spaces B model w)))) as [Hall _].
    rewrite Forall_forall in Hall.
    destruct (Hall ev Hin) as (name & spec & l' & Hitem & Hcall). rewrite Hcall.
    destruct (py_str_in name existing) eqn:Hlive; split; intros n l Heq;
      unfold add_space_call, set_space_subnets_call, juju_cmd in Heq; simpl in Heq;
      try discriminate Heq; injection Heq as -> _; eauto.
  - destruct Hd as [->|[resp ->]]; [inversion Hin|].
    apply list_elem_of_singleton in Hin as ->.
    split; intros n l Hcall; unfold default_space_call, default_space_cmd,
      add_space_call, set_space_subnets_call, juju_cmd in Hcall; simpl in Hcall;
      discriminate Hcall.
Qed.

(** With subnets that can be read, the loop does not raise. *)
Lemma ensure_spaces_does_not_raise existing items (w : W) :
  (∀ name spec, (name, spec) ∈ items -> ∃ s, subnets_of spec = inr s) ->
  ∃ o, fst (fst (ensure_spaces B model existing items w)) = inr o.
Proof.
  revert w. induction items as [|[name spec] items IH]; intros w Hall.
  - exists None. reflexivity.
  - simpl. unfold Py.bind.
    destruct (ensure_space_round existing name spec w) as (r & w0 & t0 & -> & _ & Hr).
    destruct (Hall name spec) as [s Hs]; [left|]. rewrite Hs in Hr.
    destruct Hr as [o ->]. destruct o as [res|]; [exists (Some res); reflexivity|].
    destruct (IH w0) as [o Ho]; [intros n sp Hin; apply (Hall n sp); right; exact Hin|].
    destruct (ensure_spaces B model existing items w0) as [[r1 w1] t1].
    simpl in Ho. subst r1. exists o. reflexivity.
Qed.

(** With answers that can be read, [run] does not raise: it returns
    Completed or Failed (and never Skipped), also when the query or a
    command fails. *)
Theorem spaces_run_returns items (w : W) :
  configured_spaces client = inr items ->
  (∀ name spec, (name, spec) ∈ items -> ∃ s, subnets_of spec = inr s) ->
  ∃ res, fst (fst (run B client model w)) = inr res ∧ result_type res ≠ SKIPPED.
Proof.
  intros Hitems Hspecs.
  destruct (configured_spaces_answer client items Hitems) as [spaces Hspaces].
  rewrite (run_after_query B client model spaces w Hspaces).
  destruct (existing_spaces B model w) as [[[e|existing] w0] t0].
  { eexists. split; [reflexivity|discriminate]. }
  assert (Hpy : py_items spaces = inr items).
  { unfold configured_spaces in Hitems. rewrite Hspaces in Hitems. exact Hitems. }
  unfold reconcile. rewrite Hpy, bind_lift_returned. unfold Py.bind at 1.
  destruct (ensure_spaces_does_not_raise existing items w0 Hspecs) as [o Ho].
  destruct (ensure_spaces B model existing items w0) as [[rl wl] tl] eqn:Hloop.
  simpl in Ho. subst rl. destruct o as [res|].
  - exists res. split; [reflexivity|].
    rewrite (ensure_spaces_returns B model _ _ _ _ _ _ Hloop). discriminate.
  - destruct (subprocess_run B (default_space_cmd model) wl) as [r wd] eqn:Hdefault.
    unfold Py.bind, Py.ret. rewrite (set_default_space_ran B model wl wd r Hdefault).
    eexists. split; [reflexivity|discriminate].
Qed.

(** A configured space whose value is not a mapping (or whose subnets are
    under a value that has no [get]) makes [run] raise when the loop comes
    to it: the error is not turned into a Failed result, and the commands
    issued so far stand. *)
Theorem spaces_run_raises existing pre name spec post (w w0 w1 : W) t0 t1 e :
  configured_spaces client = inr (pre ++ (name, spec) :: post) ->
  existing_spaces B model w = (inr existing, w0, t0) ->
  ensure_spaces B model existing pre w0 = (inr None, w1, t1) ->
  subnets_of spec = inl e ->
  run B client model w = (inl e, w1, t0 ++ t1).
Proof.
  intros Hitems Hquery Hpre Hsub.
  destruct (configured_spaces_answer client _ Hitems) as [spaces Hspaces].
  destruct (run_reconciles B client model spaces _ existing w w0 t0 Hitems Hspaces Hquery)
    as [Hpy ->].
  unfold reconcile. rewrite Hpy, bind_lift_returned. unfold Py.bind at 1.
  rewrite (ensure_spaces_app B model existing pre ((name, spec) :: post) w0 w1 t1 Hpre).
  simpl. unfold Py.bind at 1. unfold ensure_space at 1.
  rewrite Hsub, bind_lift_raised. rewrite app_nil_r. reflexivity.
Qed.

End SpacesCommands.

(** ** More about the pools step *)

Section PoolsMore.
Import EnsureMetalLBIsolationStep.
Context {W : Type} (B : Backend W).
Variables (METALLB_NS annotation : string).
Variable client : gmap string pyval.
Variable model : string.

(** [run] does not raise, whatever the answers, the client and the
    backend do: it returns Completed or Failed, and never Skipped. *)
Theorem pools_run_returns kube (w : W) :
  ∃ res,
    fst (fst (run B METALLB_NS annotation client model kube w)) = inr res ∧
    result_type res ≠ SKIPPED.
Proof.
  rewrite run_phases.
  destruct (apply_pools B METALLB_NS client kube w) as [[[e|[]] w1] t1].
  - eexists. split; [reflexivity|discriminate].
  - destruct (_annotate_traefik_services_via_juju B annotation model w1)
      as [[[e|[]] w2] t2]; (eexists; split; [reflexivity|discriminate]).
Qed.

(** Obtaining the kube client is the one call [is_skip] makes. *)
Theorem pools_is_skip_one_call kube (w : W) :
  ∃ resp, snd (is_skip B client kube w) = [Ev GetKubeClient resp].
Proof.
  unfold is_skip, Py.perform.
  destruct (get_kube_client B w) as [[e|k] w1].
  - case_decide; eexists; reflexivity.
  - destruct (_ranges_from_answers client) as [e|[p i]]; [eexists; reflexivity|].
    destruct (negb (truthy p) && negb (truthy i)); eexists; reflexivity.
Qed.

(** When the kube client cannot be obtained, [is_skip] returns Failed
    only for a [KubeClientError], leaving [self.kube] as it was; any other
    exception escapes [is_skip]. *)
Theorem pools_is_skip_without_client kube (w w1 : W) e :
  get_kube_client B w = (inl e, w1) ->
  (exn_cls e = KubeClientError ->
   is_skip B client kube w =
     (inr (kube, mkResult FAILED (Some (exn_str e))), w1,
      [Ev GetKubeClient (Raised e)])) ∧
  (exn_cls e ≠ KubeClientError ->
   is_skip B client kube w = (inl e, w1, [Ev GetKubeClient (Raised e)])).
Proof.
  intros Hclient. unfold is_skip, Py.perform. rewrite Hclient.
  split; intros Hcls; case_decide; congruence.
Qed.

(** [is_skip] hands the client over to [run] exactly when it does not
    fail: with Skipped or Completed, [self.kube] is the client just
    obtained. *)
Theorem pools_is_skip_keeps_client kube kube' res (w w1 : W) t :
  is_skip B client kube w = (inr (kube', res), w1, t) ->
  result_type res ≠ FAILED ->
  ∃ k, kube' = Some k ∧ get_kube_client B w = (inr k, w1).
Proof.
  unfold is_skip, Py.perform.
  destruct (get_kube_client B w) as [[e|k] w0].
  - case_decide; [|discriminate]. intros [= <- <- <- <-] Hres. contradiction Hres.
    reflexivity.
  - destruct (_ranges_from_answers client) as [e|[p i]]; [discriminate|].
    destruct (negb (truthy p) && negb (truthy i)); intros [= <- <- <- <-] _; eauto.
Qed.

(** When [is_skip] returns Skipped, no range is set, and [run], on the
    same answers, applies no pool and no advertisement: it is the
    annotation phase alone, which it still carries out. *)
Theorem pools_skipped_run_annotates kube kube' res (w w1 : W) t kube2 (w2 : W) :
  is_skip B client kube w = (inr (kube', res), w1, t) ->
  result_type res = SKIPPED ->
  run B METALLB_NS annotation client model kube2 w2 =
    match _annotate_traefik_services_via_juju B annotation model w2 with
    | (inl e, w3, t3) => (inr (mkResult FAILED (Some (exn_str e))), w3, t3)
    | (inr _, w3, t3) => (inr (mkResult COMPLETED None), w3, t3)
    end.
Proof.
  unfold is_skip, Py.perform.
  destruct (get_kube_client B w) as [[e|k] w0].
  { case_decide; [|discriminate]. intros [= _ <- _ _] Hres. discriminate Hres. }
  destruct (_ranges_from_answers client) as [e|[p i]] eqn:Hranges; [discriminate|].
  destruct (negb (truthy p) && negb (truthy i)) eqn:Habsent;
    intros [= _ <- _ _] Hres; [|discriminate Hres].
  apply andb_true_iff in Habsent as [Hp Hi].
  apply negb_true_iff in Hp, Hi.
  rewrite run_phases.
  rewrite (apply_pools_roles B METALLB_NS client kube2 (p, i) w2 Hranges).
  unfold Py.bind. simpl fst. simpl snd.
  rewrite (ensure_role_absent B METALLB_NS kube2 Public p w2 Hp).
  rewrite (ensure_role_absent B METALLB_NS kube2 Internal i w2 Hi).
  reflexivity.
Qed.

(** Without a kube client ([run] invoked before [is_skip] has obtained
    one) the block of a role whose range is set raises before any call. *)
Lemma ensure_role_without_client ρ range (w : W) :
  truthy range = true ->
  ∃ e, ensure_role B METALLB_NS None ρ range w = (inl e, w, []).
Proof.
  intros Htruthy. unfold ensure_role. rewrite Htruthy.
  unfold _ensure_pool, Py.bind, Py.lift.
  destruct (addresses range) as [e|addrs]; [eexists; reflexivity|].
  eexists. reflexivity.
Qed.

(** [run] without a kube client, with a range set, returns Failed and has
    made no call at all. *)
Theorem pools_run_without_client ranges (w : W) :
  _ranges_from_answers client = inr ranges ->
  truthy (fst ranges) = true ∨ truthy (snd ranges) = true ->
  ∃ msg,
    run B METALLB_NS annotation client model None w =
      (inr (mkResult FAILED (Some msg)), w, []).
Proof.
  intros Hranges Hset. rewrite run_phases.
  rewrite (apply_pools_roles B METALLB_NS client None ranges w Hranges).
  unfold Py.bind.
  destruct (truthy (fst ranges)) eqn:Hpub.
  - destruct (ensure_role_without_client Public (fst ranges) w Hpub) as [e ->].
    eexists. reflexivity.
  - rewrite (ensure_role_absent B METALLB_NS None Public (fst ranges) w Hpub).
    destruct Hset as [Hset|Hset]; [discriminate|].
    destruct (ensure_role_without_client Internal (snd ranges) w Hset) as [e ->].
    eexists. reflexivity.
Qed.

End PoolsMore.

Section PoolsTranscript.
Import EnsureMetalLBIsolationStep.
Context {W : Type} (B : Backend W).
Variables (METALLB_NS annotation : string).
Variable client : gmap string pyval.
Variable model : string.

Lemma applied_calls what res name body r t :
  applied METALLB_NS what res name body r t ->
  Forall (λ ev, kube_apply METALLB_NS res name body (ev_call ev)) t ∧
  replace_after_create t.
Proof.
  intros Happlied. split.
  - inversion Happlied; subst; repeat constructor; (left; reflexivity) || (right; reflexivity).
  - intros i res' name' ns' body' resp Hlook.
    inversion Happlied; subst; destruct i as [|[|i]]; simpl in Hlook;
      try discriminate; simplify_eq; eexists 0%nat, _; split; reflexivity.
Qed.

Lemma replace_after_create_app t1 t2 :
  replace_after_create t1 -> replace_after_create t2 ->
  replace_after_create (t1 ++ t2).
Proof.
  intros H1 H2 i res name ns body resp Hlook.
  apply lookup_app_Some in Hlook as [Hlook|[Hlen Hlook]].
  - destruct (H1 _ _ _ _ _ _ Hlook) as (j & e & -> & Hj). exists j, e.
    split; [reflexivity|]. apply lookup_app_l_Some. exact Hj.
  - destruct (H2 _ _ _ _ _ _ Hlook) as (j & e & Hi & Hj).
    exists (length t1 + j)%nat, e. split; [lia|].
    rewrite lookup_app_r by lia.
    replace (length t1 + j - length t1)%nat with j by lia. exact Hj.
Qed.

Lemma replace_after_create_nil : replace_after_create [].
Proof. intros i ? ? ? ? ? Hlook. destruct i; discriminate Hlook. Qed.

(** The block of a role applies resources of that role only. *)
Lemma ensure_role_resources kube ρ range (w : W) :
  Forall (λ ev, role_resource METALLB_NS ρ (ev_call ev))
         (snd (ensure_role B METALLB_NS kube ρ range w)) ∧
  replace_after_create (snd (ensure_role B METALLB_NS kube ρ range w)).
Proof.
  unfold ensure_role. destruct (truthy range).
  2: { split; [constructor|apply replace_after_create_nil]. }
  unfold _ensure_pool, _ensure_l2adv, Py.bind, Py.lift.
  destruct (addresses range) as [e|addrs].
  { split; [constructor|apply replace_after_create_nil]. }
  destruct (create_or_replace_applied B METALLB_NS kube "IPAddressPool" IPAddressPool
              (pool_name ρ) (pool_body METALLB_NS (pool_name ρ) addrs) w)
    as (r1 & w1 & t1 & -> & A1).
  destruct (applied_calls _ _ _ _ _ _ A1) as [Hcalls1 Hafter1].
  assert (Hpool : Forall (λ ev, role_resource METALLB_NS ρ (ev_call ev)) t1).
  { apply (Forall_impl _ _ _ Hcalls1). intros ev H. left. exists addrs. exact H. }
  destruct r1 as [e1|[]]; [split; assumption|].
  destruct (create_or_replace_applied B METALLB_NS kube "L2Advertisement" L2Advertisement
              (adv_name ρ) (l2adv_body METALLB_NS (adv_name ρ) [pool_name ρ]) w1)
    as (r2 & w2 & t2 & -> & A2).
  destruct (applied_calls _ _ _ _ _ _ A2) as [Hcalls2 Hafter2].
  simpl. split.
  - apply Forall_app. split; [exact Hpool|].
    apply (Forall_impl _ _ _ Hcalls2). intros ev H. right. exact H.
  - apply replace_after_create_app; assumption.
Qed.

Lemma apply_pools_resources kube (w : W) :
  Forall (λ ev, ∃ ρ, role_resource METALLB_NS ρ (ev_call ev))
         (snd (apply_pools B METALLB_NS client kube w)) ∧
  replace_after_create (snd (apply_pools B METALLB_NS client kube w)).
Proof.
  destruct (_ranges_from_answers client) as [e|ranges] eqn:Hranges.
  { unfold apply_pools. rewrite Hranges, bind_lift_raised.
    split; [constructor|apply replace_after_create_nil]. }
  rewrite (apply_pools_roles B METALLB_NS client kube ranges w Hranges). unfold Py.bind.
  destruct (ensure_role_resources kube Public (fst ranges) w) as [Hpub Hpub'].
  destruct (ensure_role B METALLB_NS kube Public ranges.1 w) as [[rp wp] tp].
  simpl in Hpub, Hpub'.
  assert (Hpub2 : Forall (λ ev, ∃ ρ, role_resource METALLB_NS ρ (ev_call ev)) tp).
  { apply (Forall_impl _ _ _ Hpub). eauto. }
  destruct rp as [e|[]]; [split; assumption|].
  destruct (ensure_role_resources kube Internal (snd ranges) wp) as [Hint Hint'].
  destruct (ensure_role B METALLB_NS kube Internal ranges.2 wp) as [[ri wi] ti].
  simpl in Hint, Hint' |- *. split.
  - apply Forall_app. split; [exact Hpub2|]. apply (Forall_impl _ _ _ Hint). eauto.
  - apply replace_after_create_app; assumption.
Qed.

(** The transcript of [run] is that of the pool phase, followed by calls
    of the annotation phase. *)
Lemma run_transcript_pools kube (w : W) :
  ∃ ta,
    snd (run B METALLB_NS annotation client model kube w) =
      snd (apply_pools B METALLB_NS client kube w) ++ ta ∧
    Forall (λ ev, annotation_call (ev_call ev)) ta.
Proof.
  rewrite run_phases.
  destruct (apply_pools B METALLB_NS client kube w) as [[[e|[]] w1] t1].
  - exists []. simpl. rewrite app_nil_r. split; [reflexivity|constructor].
  - destruct (_annotate_traefik_services_via_juju B annotation model w1)
      as [[ra w2] t2] eqn:Hannotate.
    destruct (annotate_calls B annotation model w1 w2 ra t2 Hannotate) as [Hcalls _].
    exists t2. split; [destruct ra as [?|[]]; reflexivity|exact Hcalls].
Qed.

(** The calls of [run] come in two parts.  First the kube calls, each of
    which applies, in the namespace of MetalLB, the pool of a role under
    its fixed name or the advertisement of a role, which lists the pool of
    that role and no other; then the calls of the annotation phase.  No
    annotation is made before the pools are dealt with. *)
Theorem pools_then_annotations kube (w : W) :
  ∃ t1 t2,
    snd (run B METALLB_NS annotation client model kube w) = t1 ++ t2 ∧
    Forall (λ ev, ∃ ρ, role_resource METALLB_NS ρ (ev_call ev)) t1 ∧
    Forall (λ ev, annotation_call (ev_call ev)) t2.
Proof.
  destruct (run_transcript_pools kube w) as (ta & Ht & Hannotation).
  destruct (apply_pools_resources kube w) as [Hresources _].
  eauto.
Qed.

(** A resource is replaced only when its creation has just been tried
    and has raised: in the calls of an invocation, in their order, every
    replace call comes right after the create call for the same body, and
    that create call has raised.  No replace call is the first call. *)
Theorem pools_replace_after_create kube (w : W) :
  replace_after_create (snd (run B METALLB_NS annotation client model kube w)).
Proof.
  destruct (run_transcript_pools kube w) as (ta & -> & Hannotation).
  destruct (apply_pools_resources kube w) as [_ Hafter].
  apply replace_after_create_app; [exact Hafter|].
  intros i res name ns body resp Hlook. rewrite Forall_lookup in Hannotation.
  destruct (Hannotation _ _ Hlook).
Qed.

End PoolsTranscript.

Section PoolsFailures.
Import EnsureMetalLBIsolationStep.
Context {W : Type} (B : Backend W).
Variables (METALLB_NS annotation : string).
Variable client : gmap string pyval.
Variable model : string.

(** When the replacement of the advertisement of a role raises, the block
    of the role raises, and the pool of the role has been applied. *)
Lemma ensure_role_advertisement_failure kube ρ range (w w' : W) r t :
  ensure_role B METALLB_NS kube ρ range w = (r, w', t) ->
  ∀ body re,
    Ev (KubeReplace L2Advertisement (adv_name ρ) METALLB_NS body) (Raised re) ∈ t ->
    r = inl (failed_to_apply "L2Advertisement" (adv_name ρ) re) ∧
    ∃ c, applies IPAddressPool (pool_name ρ) c ∧ Ev c Done ∈ t.
Proof.
  unfold ensure_role. destruct (truthy range).
  2: { intros [= <- <- <-] ? ? Hin. inversion Hin. }
  unfold _ensure_pool, _ensure_l2adv, Py.bind, Py.lift.
  destruct (addresses range) as [e|addrs].
  { intros [= <- <- <-] ? ? Hin. inversion Hin. }
  destruct (create_or_replace_applied B METALLB_NS kube "IPAddressPool" IPAddressPool
              (pool_name ρ) (pool_body METALLB_NS (pool_name ρ) addrs) w)
    as (r1 & w1 & t1 & -> & A1).
  destruct r1 as [e1|[]].
  - intros [= <- <- <-] body re Hin. exfalso.
    inversion A1; subst; repeat (apply elem_of_cons in Hin as [[=]|Hin]); inversion Hin.
  - destruct (create_or_replace_applied B METALLB_NS kube "L2Advertisement"
                L2Advertisement (adv_name ρ)
                (l2adv_body METALLB_NS (adv_name ρ) [pool_name ρ]) w1)
      as (r2 & w2 & t2 & -> & A2).
    intros [= <- <- <-] body re Hin. apply elem_of_app in Hin as [Hin|Hin].
    + exfalso.
      inversion A1; subst; repeat (apply elem_of_cons in Hin as [[=]|Hin]); inversion Hin.
    + assert (Hpool : ∃ c, applies IPAddressPool (pool_name ρ) c ∧ Ev c Done ∈ t1).
      { inversion A1; subst; eexists; (split; [|repeat first [left | right]]);
          reflexivity. }
      destruct Hpool as (c & Hc & Hdone).
      inversion A2; subst;
        repeat (apply elem_of_cons in Hin as [Heq|Hin]; [try discriminate Heq|]);
        try (inversion Hin; fail).
      injection Heq as -> ->. split; [reflexivity|].
      exists c. split; [exact Hc|]. apply elem_of_app. left. exact Hdone.
Qed.

Lemma advertised_in_block ρ ρ' body resp t :
  Forall (λ ev, pool_phase_call ρ' (ev_call ev)) t ->
  Ev (KubeReplace L2Advertisement (adv_name ρ) METALLB_NS body) resp ∈ t ->
  ρ = ρ'.
Proof.
  intros Hall Hin. rewrite Forall_forall in Hall. specialize (Hall _ Hin).
  destruct ρ, ρ'; try reflexivity; exfalso;
    destruct Hall as [H|H]; discriminate H.
Qed.

Lemma apply_pools_advertisement_failure kube ρ (w w' : W) r t body re :
  apply_pools B METALLB_NS client kube w = (r, w', t) ->
  Ev (KubeReplace L2Advertisement (adv_name ρ) METALLB_NS body) (Raised re) ∈ t ->
  r = inl (failed_to_apply "L2Advertisement" (adv_name ρ) re) ∧
  ∃ c, applies IPAddressPool (pool_name ρ) c ∧ Ev c Done ∈ t.
Proof.
  destruct (_ranges_from_answers client) as [e|ranges] eqn:Hranges.
  { unfold apply_pools. rewrite Hranges. intros [= <- <- <-] Hin. inversion Hin. }
  rewrite (apply_pools_roles B METALLB_NS client kube ranges w Hranges). unfold Py.bind.
  destruct (ensure_role B METALLB_NS kube Public ranges.1 w)
    as [[rp wp] tp] eqn:Hp.
  destruct (ensure_role_calls B METALLB_NS kube Public _ w wp rp tp Hp) as [Pall _].
  pose proof (ensure_role_advertisement_failure kube Public _ w wp rp tp Hp) as Pfail.
  destruct rp as [e|[]].
  - intros [= <- <- <-] Hin.
    rewrite (advertised_in_block ρ Public body _ tp Pall Hin) in Hin |- *. eauto.
  - destruct (ensure_role B METALLB_NS kube Internal ranges.2 wp)
      as [[ri wi] ti] eqn:Hi.
    destruct (ensure_role_calls B METALLB_NS kube Internal _ wp wi ri ti Hi) as [Iall _].
    pose proof (ensure_role_advertisement_failure kube Internal _ wp wi ri ti Hi)
      as Ifail.
    intros [= <- <- <-] Hin. apply elem_of_app in Hin as [Hin|Hin].
    + rewrite (advertised_in_block ρ Public body _ tp Pall Hin) in Hin.
      destruct (Pfail _ _ Hin) as [[=] _].
    + rewrite (advertised_in_block ρ Internal body _ ti Iall Hin) in Hin |- *.
      destruct (Ifail _ _ Hin) as (-> & c & Hc & Hdone). split; [reflexivity|].
      exists c. split; [exact Hc|]. apply elem_of_app. right. exact Hdone.
Qed.

(** When, in an invocation of [run], the creation of the advertisement of
    a role raises and its replacement raises too, [run] returns Failed with
    the message of [_ensure_l2adv] and makes no call of the annotation
    phase; the pool of the role has been applied before, and it is left in
    place. *)
Theorem pools_advertisement_failure kube ρ (w w' : W) r t body re :
  run B METALLB_NS annotation client model kube w = (r, w', t) ->
  Ev (KubeReplace L2Advertisement (adv_name ρ) METALLB_NS body) (Raised re) ∈ t ->
  r = inr (mkResult FAILED
             (Some ("Failed to apply L2Advertisement " +:+ adv_name ρ +:+ ": "
                    +:+ exn_str re))) ∧
  (∀ ev, ev ∈ t -> ¬ annotation_call (ev_call ev)) ∧
  ∃ c, applies IPAddressPool (pool_name ρ) c ∧ Ev c Done ∈ t.
Proof.
  intros Hrun Hreplace. rewrite run_phases in Hrun.
  destruct (apply_pools B METALLB_NS client kube w) as [[[e|[]] w1] t1] eqn:Hpools;
    destruct (apply_pools_calls B METALLB_NS client kube w w1 _ t1 Hpools)
      as (Hall & _ & _).
  - injection Hrun as <- <- <-.
    destruct (apply_pools_advertisement_failure kube ρ w w1 _ t1 body re Hpools Hreplace)
      as ([= ->] & Hpool).
    split; [reflexivity|]. split; [|exact Hpool].
    intros ev Hev. rewrite Forall_forall in Hall. destruct (Hall ev Hev) as [ρ' Hcall].
    exact (pool_phase_is_not_annotation ρ' _ Hcall).
  - exfalso.
    destruct (_annotate_traefik_services_via_juju B annotation model w1)
      as [[ra w2] t2] eqn:Hannotate.
    destruct (annotate_calls B annotation model w1 w2 ra t2 Hannotate) as [Hcalls _].
    assert (Hin : Ev (KubeReplace L2Advertisement (adv_name ρ) METALLB_NS body)
                     (Raised re) ∈ t1 ++ t2)
      by (destruct ra as [?|[]]; simplify_eq; exact Hreplace).
    apply elem_of_app in Hin as [Hin|Hin].
    + destruct (apply_pools_advertisement_failure kube ρ w w1 _ t1 body re Hpools Hin)
        as ([=] & _).
    + rewrite Forall_forall in Hcalls. exact (Hcalls _ Hin).
Qed.

(** *** What is annotated *)

Lemma annotate_apps_only existing apps (w : W) :
  Forall (λ ev, ∃ app pool,
            (app, pool) ∈ apps ∧ app ∈ existing ∧
            ev_call ev = JujuCli (annotation_args annotation app pool) false)
         (snd (annotate_apps B annotation existing apps w)).
Proof.
  revert w. induction apps as [|[app0 pool0] apps IH]; intros w; [constructor|].
  assert (Htail : ∀ w0,
            Forall (λ ev, ∃ app pool,
                      (app, pool) ∈ (app0, pool0) :: apps ∧ app ∈ existing ∧
                      ev_call ev = JujuCli (annotation_args annotation app pool) false)
                   (snd (annotate_apps B annotation existing apps w0))).
  { intros w0. apply (Forall_impl _ _ _ (IH w0)).
    intros ev (app & pool & Hin & Hex & Hcall). exists app, pool.
    split; [right; exact Hin|auto]. }
  simpl. unfold Py.bind. case_bool_decide as Hex.
  - unfold Py.ret. specialize (Htail w).
    destruct (annotate_apps B annotation existing apps w) as [[r1 w1] t1]. exact Htail.
  - unfold annotate_app, Py.perform.
    destruct (juju_cli B (annotation_args annotation app0 pool0) false w) as [[e|[]] w0].
    + repeat constructor. exists app0, pool0. split; [left|auto].
    + specialize (Htail w0).
      destruct (annotate_apps B annotation existing apps w0) as [[r1 w1] t1].
      simpl in *. constructor; [|exact Htail].
      exists app0, pool0. split; [left|auto].
Qed.

(** The annotation phase sets the annotation of no application but those
    of [TRAEFIK_APPS] that the model reports, each with the pool the table
    gives it, and always with [json_format=False]. *)
Lemma annotate_only (w : W) :
  Forall (λ ev, ∀ args json_format,
            ev_call ev = JujuCli args json_format ->
            json_format = false ∧
            ∃ app pool,
              (app, pool) ∈ TRAEFIK_APPS ∧
              args = annotation_args annotation app pool ∧
              ∀ names,
                Ev (GetApplicationNames model) (Names names)
                  ∈ snd (_annotate_traefik_services_via_juju B annotation model w) ->
                app ∈ names)
         (snd (_annotate_traefik_services_via_juju B annotation model w)).
Proof.
  unfold _annotate_traefik_services_via_juju, Py.bind, Py.perform.
  destruct (juju_helper_load B w) as [[e|[]] w0].
  { constructor; [simpl; discriminate|constructor]. }
  destruct (get_application_names B model w0) as [[e|names0] w1].
  { constructor; [simpl; discriminate|].
    constructor; [simpl; discriminate|constructor]. }
  pose proof (annotate_apps_only (list_to_set names0) TRAEFIK_APPS w1) as Honly.
  destruct (annotate_apps B annotation (list_to_set names0) TRAEFIK_APPS w1)
    as [[r1 w2] t1].
  simpl in *. constructor; [discriminate|]. constructor; [discriminate|].
  apply (Forall_impl _ _ _ Honly). rewrite Forall_forall in Honly.
  intros ev (app & pool & Hin & Hex & Hcall) args jf Heq.
  rewrite Hcall in Heq. injection Heq as <- <-. split; [reflexivity|].
  exists app, pool. split; [exact Hin|]. split; [reflexivity|].
  intros names Hnames.
  apply elem_of_cons in Hnames as [[=]|Hnames].
  apply elem_of_cons in Hnames as [[= ->]|Hnames].
  - apply elem_of_list_to_set in Hex. exact Hex.
  - destruct (Honly _ Hnames) as (? & ? & _ & _ & [=]).
Qed.

(** Every [juju config] call of [run] is made with [json_format=False],
    for an application of [TRAEFIK_APPS] with the pool the table gives it,
    and for an application the model has reported: no other application
    is touched. *)
Theorem pools_annotation_targets kube (w : W) :
  Forall (λ ev, ∀ args json_format,
            ev_call ev = JujuCli args json_format ->
            json_format = false ∧
            ∃ app pool,
              (app, pool) ∈ TRAEFIK_APPS ∧
              args = annotation_args annotation app pool ∧
              ∀ names,
                Ev (GetApplicationNames model) (Names names)
                  ∈ snd (run B METALLB_NS annotation client model kube w) ->
                app ∈ names)
         (snd (run B METALLB_NS annotation client model kube w)).
Proof.
  rewrite run_phases.
  destruct (apply_pools B METALLB_NS client kube w) as [[[e|[]] w1] t1] eqn:Hpools;
    destruct (apply_pools_calls B METALLB_NS client kube w w1 _ t1 Hpools)
      as (Hall & _ & _); rewrite Forall_forall in Hall.
  - simpl. apply Forall_forall. intros ev Hev args jf Hcall.
    destruct (Hall ev Hev) as [ρ [H|H]]; rewrite Hcall in H; discriminate H.
  - pose proof (annotate_only w1) as Honly.
    destruct (_annotate_traefik_services_via_juju B annotation model w1)
      as [[ra w2] t2].
    assert (Hgoal :
      Forall (λ ev, ∀ args json_format,
                ev_call ev = JujuCli args json_format ->
                json_format = false ∧
                ∃ app pool,
                  (app, pool) ∈ TRAEFIK_APPS ∧
                  args = annotation_args annotation app pool ∧
                  ∀ names,
                    Ev (GetApplicationNames model) (Names names) ∈ t1 ++ t2 ->
                    app ∈ names) (t1 ++ t2)).
    { simpl in Honly. apply Forall_app. split.
      - apply Forall_forall. intros ev Hev args jf Hcall.
        destruct (Hall ev Hev) as [ρ [H|H]]; rewrite Hcall in H; discriminate H.
      - apply (Forall_impl _ _ _ Honly). intros ev Hev args jf Hcall.
        destruct (Hev args jf Hcall) as (-> & app & pool & Hin & -> & Hnames).
        split; [reflexivity|]. exists app, pool. split; [exact Hin|].
        split; [reflexivity|]. intros names Hn. apply Hnames.
        apply elem_of_app in Hn as [Hn|Hn]; [|exact Hn].
        destruct (Hall _ Hn) as [ρ [H|H]]; discriminate H. }
    destruct ra as [?|[]]; exact Hgoal.
Qed.

End PoolsFailures.

(** ** The addresses of a pool *)

Section Addresses.
Import EnsureMetalLBIsolationStep.

Lemma rstrip_cons c s :
  is_space c = false -> rstrip (String c s) = String c (rstrip s).
Proof. intros Hc. simpl. rewrite Hc. destruct (rstrip s); reflexivity. Qed.

Lemma rstrip_rstrip s : rstrip (rstrip s) = rstrip s.
Proof.
  induction s as [|c s IH]; [reflexivity|]. simpl.
  destruct (rstrip s) as [|c' s'] eqn:Hs.
  - destruct (is_space c) eqn:Hc; [reflexivity|]. simpl. rewrite Hc. reflexivity.
  - change (rstrip (String c (String c' s')) = String c (String c' s')).
    simpl. simpl in IH. rewrite IH. reflexivity.
Qed.

Lemma lstrip_head s :
  lstrip s = "" ∨ ∃ c r, lstrip s = String c r ∧ is_space c = false.
Proof.
  induction s as [|c s IH]; [left; reflexivity|]. simpl.
  destruct (is_space c) eqn:Hc; [exact IH|]. right. eauto.
Qed.

Lemma py_strip_py_strip s : py_strip (py_strip s) = py_strip s.
Proof.
  unfold py_strip. destruct (lstrip_head s) as [->|(c & r & -> & Hc)]; [reflexivity|].
  rewrite (rstrip_cons c r Hc). simpl lstrip. rewrite Hc.
  rewrite (rstrip_cons c _ Hc), rstrip_rstrip. reflexivity.
Qed.

Lemma no_comma_lstrip s : no_comma s = true -> no_comma (lstrip s) = true.
Proof.
  induction s as [|c s IH]; [reflexivity|]. simpl. intros H.
  apply andb_true_iff in H as [Hc Hs].
  destruct (is_space c); [auto|]. simpl. rewrite Hc, Hs. reflexivity.
Qed.

Lemma no_comma_rstrip s : no_comma s = true -> no_comma (rstrip s) = true.
Proof.
  induction s as [|c s IH]; [reflexivity|]. simpl. intros H.
  apply andb_true_iff in H as [Hc Hs]. specialize (IH Hs).
  destruct (rstrip s) as [|c' s'].
  - destruct (is_space c); [reflexivity|]. simpl. rewrite Hc. reflexivity.
  - simpl. simpl in IH. rewrite Hc, IH. reflexivity.
Qed.

Lemma no_comma_py_strip s : no_comma s = true -> no_comma (py_strip s) = true.
Proof. intros H. apply no_comma_rstrip, no_comma_lstrip, H. Qed.

(** [split] cuts at every comma. *)
Lemma py_split_comma_tokens s :
  Forall (λ r, no_comma r = true) (py_split_comma s).
Proof.
  induction s as [|c s IH]; [repeat constructor|]. simpl.
  destruct (Ascii.eqb c ",") eqn:Hc; [constructor; [reflexivity|exact IH]|].
  destruct (py_split_comma s) as [|h t]; [repeat constructor; simpl; rewrite Hc; reflexivity|].
  inversion IH; subst. constructor; [|assumption]. simpl. rewrite Hc. assumption.
Qed.

(** The addresses kept from the tokens of a range. *)
Lemma kept_clean tokens :
  Forall (λ r, no_comma r = true) tokens ->
  Forall clean_address
         (map py_strip (filter (λ r, truthy (PStr (py_strip r))) tokens)).
Proof.
  induction 1 as [|r tokens Hr _ IH]; [constructor|].
  rewrite filter_cons. case_decide as Hkept; [|exact IH].
  rewrite map_cons. constructor; [|exact IH]. split; [|split].
  - intros Hempty. rewrite Hempty in Hkept. exact Hkept.
  - apply py_strip_py_strip.
  - apply no_comma_py_strip, Hr.
Qed.

(** Whatever the range string, the addresses of the pool are clean: none
    is empty, none has whitespace around it, none holds a comma. *)
Theorem addresses_clean (s : string) :
  ∃ tokens,
    addresses (PStr s) = inr (map PStr tokens) ∧ Forall clean_address tokens.
Proof.
  exists (map py_strip (filter (λ r, truthy (PStr (py_strip r))) (py_split_comma s))).
  split.
  - simpl. rewrite map_map. reflexivity.
  - apply kept_clean, py_split_comma_tokens.
Qed.

Lemma py_split_comma_single a :
  no_comma a = true -> py_split_comma a = [a].
Proof.
  induction a as [|c a IH]; [reflexivity|]. simpl. intros H.
  apply andb_true_iff in H as [Hc Ha]. apply negb_true_iff in Hc.
  rewrite Hc, (IH Ha). reflexivity.
Qed.

Lemma py_split_comma_cons a rest :
  no_comma a = true ->
  py_split_comma (a +:+ String "," rest) = a :: py_split_comma rest.
Proof.
  induction a as [|c a IH]; [reflexivity|]. simpl. intros H.
  apply andb_true_iff in H as [Hc Ha]. apply negb_true_iff in Hc.
  rewrite Hc, (IH Ha). reflexivity.
Qed.

Lemma py_split_comma_join a tokens :
  Forall (λ r, no_comma r = true) (a :: tokens) ->
  py_split_comma (py_join_comma (a :: tokens)) = a :: tokens.
Proof.
  revert a. induction tokens as [|b tokens IH]; intros a Hall.
  - inversion Hall; subst. apply py_split_comma_single. assumption.
  - inversion Hall as [|? ? Ha Hrest]; subst.
    change (py_join_comma (a :: b :: tokens))
      with (a +:+ String "," (py_join_comma (b :: tokens))).
    rewrite (py_split_comma_cons a _ Ha), (IH b Hrest). reflexivity.
Qed.

Lemma kept_all tokens :
  Forall clean_address tokens ->
  map py_strip (filter (λ r, truthy (PStr (py_strip r))) tokens) = tokens.
Proof.
  induction 1 as [|a tokens (Hne & Hstrip & _) _ IH]; [reflexivity|].
  rewrite filter_cons. case_decide as Hkept.
  - rewrite map_cons, Hstrip, IH. reflexivity.
  - exfalso. apply Hkept. rewrite Hstrip. simpl.
    destruct a; [contradiction|reflexivity].
Qed.

(** Clean addresses of ASCII text joined by commas are read back as they
    were, in their order. *)
Theorem addresses_join (tokens : list string) :
  Forall (λ a, ascii_text a = true) tokens ->
  Forall clean_address tokens ->
  addresses (PStr (py_join_comma tokens)) = inr (map PStr tokens).
Proof.
  intros _ Hclean. destruct tokens as [|a tokens]; [reflexivity|].
  unfold addresses. rewrite py_split_comma_join.
  - rewrite <- (map_map py_strip PStr), (kept_all _ Hclean). reflexivity.
  - apply (Forall_impl _ _ _ Hclean). intros r (_ & _ & H). exact H.
Qed.

Lemma lstrip_blank s : all_blank s = true -> no_comma s = true -> lstrip s = "".
Proof.
  induction s as [|c s IH]; [reflexivity|]. simpl. intros Hblank Hcomma.
  apply andb_true_iff in Hblank as [Hc Hs]. apply andb_true_iff in Hcomma as [Hc' Hs'].
  apply negb_true_iff in Hc'. rewrite Hc' in Hc. simpl in Hc. rewrite Hc. auto.
Qed.

Lemma py_split_comma_blank s :
  all_blank s = true -> Forall (λ r, all_blank r = true) (py_split_comma s).
Proof.
  induction s as [|c s IH]; [repeat constructor|]. simpl. intros H.
  apply andb_true_iff in H as [Hc Hs]. specialize (IH Hs).
  destruct (Ascii.eqb c ",") eqn:Hcomma; [constructor; [reflexivity|exact IH]|].
  simpl in Hc.
  destruct (py_split_comma s) as [|h t];
    [repeat constructor; simpl; rewrite Hcomma, Hc; reflexivity|].
  inversion IH; subst. constructor; [|assumption]. simpl.
  rewrite Hcomma, Hc. assumption.
Qed.

(** A range of whitespace and commas only gives the pool no address. *)
Theorem addresses_blank (s : string) :
  all_blank s = true -> addresses (PStr s) = inr [].
Proof.
  intros Hblank. unfold addresses.
  assert (Hnone : ∀ tokens,
            Forall (λ r, all_blank r = true) tokens ->
            Forall (λ r, no_comma r = true) tokens ->
            filter (λ r, truthy (PStr (py_strip r))) tokens = []).
  { induction 1 as [|r tokens Hr _ IH]; [reflexivity|]. intros Hcomma.
    inversion Hcomma; subst. rewrite filter_cons. case_decide as Hkept; [|auto].
    exfalso. unfold py_strip in Hkept. rewrite (lstrip_blank r Hr) in Hkept; assumption. }
  rewrite (Hnone _ (py_split_comma_blank s Hblank) (py_split_comma_tokens s)).
  reflexivity.
Qed.

End Addresses.

(** ** More about the import *)

Section ImportMore.
Import NetworkIsolationImport.
Variable KEY : string.

(** What an import that saves leaves under the key. *)
Lemma import_then_load_aux (client : gmap string pyval) text data enable :
  json_loads text = inr data ->
  py_get data "enable_isolation" = inr enable ->
  truthy enable = true ->
  fst (fst (import_network_isolation_answers KEY (Some (inr text)) client)) = inr data ∧
  load_answers
    (snd (fst (import_network_isolation_answers KEY (Some (inr text)) client))) KEY
    = PDict [("network_isolation", data)].
Proof.
  intros Hdata Hflag Htruthy. unfold import_network_isolation_answers. simpl.
  rewrite Hdata, Hflag, Htruthy. simpl. split; [reflexivity|].
  unfold load_answers, save_answers. rewrite lookup_insert_eq. reflexivity.
Qed.

Lemma import_keeps_other_keys_aux SNAP_JSON (client : gmap string pyval) (key : string) :
  key ≠ KEY ->
  snd (fst (import_network_isolation_answers KEY SNAP_JSON client)) !! key
    = client !! key.
Proof.
  intros Hkey. unfold import_network_isolation_answers.
  destruct SNAP_JSON as [[e|text]|]; simpl; try reflexivity.
  destruct (json_loads text) as [e|data]; [reflexivity|].
  destruct (py_get data "enable_isolation") as [e|enable]; [reflexivity|].
  destruct (truthy enable); simpl; [|reflexivity].
  unfold save_answers. apply lookup_insert_ne. congruence.
Qed.

(** The import saves answers in one case only, that of a file that
    decodes to a mapping whose enable flag is set; then it saves the
    document under the one key and returns it.  In every other case (no
    file, a file that cannot be read or decoded, a document that is not a
    mapping, a flag that is not set) it saves nothing, leaves the store as
    it was, and returns the empty mapping or lets the exception out. *)
Theorem import_saves_only_when_enabled SNAP_JSON (client : gmap string pyval) :
  (∃ text data enable,
     SNAP_JSON = Some (inr text) ∧ json_loads text = inr data ∧
     py_get data "enable_isolation" = inr enable ∧ truthy enable = true ∧
     import_network_isolation_answers KEY SNAP_JSON client =
       (inr data,
        save_answers client KEY (PDict [("network_isolation", data)]),
        [Saved KEY (PDict [("network_isolation", data)]);
         Printed "[green]Imported network isolation config into answers.[/green]"])) ∨
  (snd (fst (import_network_isolation_answers KEY SNAP_JSON client)) = client ∧
   Forall (λ eff, ∀ key answers, eff ≠ Saved key answers)
          (snd (import_network_isolation_answers KEY SNAP_JSON client)) ∧
   (fst (fst (import_network_isolation_answers KEY SNAP_JSON client)) = inr (PDict []) ∨
    ∃ e, fst (fst (import_network_isolation_answers KEY SNAP_JSON client)) = inl e)).
Proof.
  unfold import_network_isolation_answers.
  destruct SNAP_JSON as [[e|text]|]; simpl.
  - right. split; [reflexivity|]. split; [repeat constructor; discriminate|auto].
  - destruct (json_loads text) as [e|data] eqn:Hdata.
    { right. split; [reflexivity|]. split; [repeat constructor; discriminate|auto]. }
    destruct (py_get data "enable_isolation") as [e|enable] eqn:Hflag.
    { right. split; [reflexivity|]. split; [constructor|eauto]. }
    destruct (truthy enable) eqn:Htruthy; simpl.
    + left. exists text, data, enable. auto.
    + right. split; [reflexivity|]. split; [constructor|auto].
  - right. split; [reflexivity|]. split; [constructor|auto].
Qed.

(** Whatever the import does, the answers under every other key are as
    they were. *)
Theorem import_keeps_other_keys SNAP_JSON (client : gmap string pyval) (key : string) :
  key ≠ KEY ->
  snd (fst (import_network_isolation_answers KEY SNAP_JSON client)) !! key
    = client !! key.
Proof. exact (import_keeps_other_keys_aux SNAP_JSON client key). Qed.

(** After an import that saves, loading the answers under the key gives
    the document back, wrapped under ["network_isolation"], and the
    document is what the import returns. *)
Theorem import_then_load (client : gmap string pyval) text data enable :
  json_loads text = inr data ->
  py_get data "enable_isolation" = inr enable ->
  truthy enable = true ->
  fst (fst (import_network_isolation_answers KEY (Some (inr text)) client)) = inr data ∧
  load_answers
    (snd (fst (import_network_isolation_answers KEY (Some (inr text)) client))) KEY
    = PDict [("network_isolation", data)].
Proof. exact (import_then_load_aux client text data enable). Qed.

(** A document that decodes but is not a mapping (a list, a string, a
    number) makes the import raise: this error is not caught, unlike a
    decoding error. *)
Theorem import_raises_on_non_mapping (client : gmap string pyval) text data :
  json_loads text = inr data ->
  is_dict data = false ->
  import_network_isolation_answers KEY (Some (inr text)) client =
    (inl (attribute_error data "get"), client, []).
Proof.
  intros Hdata Hdict. unfold import_network_isolation_answers. simpl.
  rewrite Hdata. destruct data; try discriminate Hdict; reflexivity.
Qed.

End ImportMore.

(** ** The import and the steps *)

Section ImportThenSteps.
Import NetworkIsolationImport.

Lemma enabled_document_is_truthy data enable :
  py_get data "enable_isolation" = inr enable ->
  truthy enable = true ->
  truthy data = true.
Proof.
  destruct data as [| | | | | |d]; try discriminate.
  destruct d; [|reflexivity]. simpl. intros [= <-]. discriminate.
Qed.

(** What the import saves under ["network_isolation"] is what the spaces
    step reads: its [ni] is the imported document, so its enable flag and
    its spaces are those of the file. *)
Theorem import_then_spaces_step (client : gmap string pyval) text data enable :
  json_loads text = inr data ->
  py_get data "enable_isolation" = inr enable ->
  truthy enable = true ->
  let saved :=
    snd (fst (import_network_isolation_answers
                EnsureJujuSpacesStep.NETWORK_ISOLATION_KEY (Some (inr text)) client)) in
  EnsureJujuSpacesStep.network_isolation saved = inr data ∧
  spaces_enable_flag saved = inr enable.
Proof.
  intros Hdata Hflag Htruthy saved.
  assert (Hni : EnsureJujuSpacesStep.network_isolation saved = inr data).
  { unfold EnsureJujuSpacesStep.network_isolation, EnsureJujuSpacesStep._answers.
    subst saved.
    rewrite (proj2 (import_then_load_aux _ client text data enable Hdata Hflag Htruthy)).
    simpl. unfold py_or.
    rewrite (enabled_document_is_truthy data enable Hflag Htruthy). reflexivity. }
  split; [exact Hni|]. unfold spaces_enable_flag. rewrite Hni. exact Hflag.
Qed.

(** The pools step does not find the flag the import saves: it looks for
    [enable_isolation] at the top of the answers under
    ["network_isolation"], and the import puts the document one level
    below.  After an import that saves, with the flag set in the file, the
    pools step takes isolation to be disabled and resolves both ranges to
    [None], whatever the add-ons say. *)
Theorem import_then_pools_step (client : gmap string pyval) text data enable d :
  json_loads text = inr data ->
  py_get data "enable_isolation" = inr enable ->
  truthy enable = true ->
  k8s_addons client = inr (PDict d) ->
  let saved :=
    snd (fst (import_network_isolation_answers
                EnsureMetalLBIsolationStep.NETWORK_ISOLATION_CONFIG_KEY
                (Some (inr text)) client)) in
  EnsureMetalLBIsolationStep.enable_iso saved = inr false ∧
  EnsureMetalLBIsolationStep._ranges_from_answers saved = inr (PNone, PNone).
Proof.
  intros Hdata Hflag Htruthy Haddons saved.
  assert (Hiso : EnsureMetalLBIsolationStep.enable_iso saved = inr false).
  { unfold EnsureMetalLBIsolationStep.enable_iso. subst saved.
    rewrite (proj2 (import_then_load_aux _ client text data enable Hdata Hflag Htruthy)).
    reflexivity. }
  split; [exact Hiso|].
  apply (ranges_disabled saved d); [|exact Hiso].
  unfold k8s_addons, load_answers in Haddons |- *. subst saved.
  rewrite (import_keeps_other_keys_aux _ _ client); [exact Haddons|discriminate].
Qed.

End ImportThenSteps.

(** ** The added properties, on the deployments above *)

Lemma spaces_is_skip_ready_witness :
  fst (fst (EnsureJujuSpacesStep.is_skip Examples.management_answers Examples.fresh))
    = inr (mkResult COMPLETED None).
Proof.
  apply (spaces_is_skip_ready Examples.management_answers Examples.fresh (PBool true)
           (PDict [("management", Examples.management)]) eq_refl eq_refl).
  split; reflexivity.
Defined.

Lemma spaces_without_subnets_witness :
  EnsureJujuSpacesStep.run Scripted.backend Examples.idle_answers "openstack"
    Examples.refuses_default_space =
    (inr (mkResult COMPLETED None), Scripted.World [] [],
     [Ev (spaces_query "openstack") (Output (Scripted.spaces_text []))] ++
     [Ev (default_space_call "openstack") (Raised Live.called_process_error)]).
Proof.
  apply (spaces_without_subnets Scripted.backend Examples.idle_answers "openstack"
           [("management", PDict [("subnets", PList [])]); ("data", PDict [])] []
           Examples.refuses_default_space (Scripted.World [None] [])
           (Scripted.World [] []) _ (inl Live.called_process_error)
           eq_refl eq_refl); [|reflexivity].
  intros name spec Hin.
  apply elem_of_cons in Hin as [[= -> ->]|Hin];
    [|apply list_elem_of_singleton in Hin; injection Hin as -> ->];
    eexists; split; reflexivity.
Defined.

Lemma spaces_commands_bounded_witness :
  (length (snd (EnsureJujuSpacesStep.run Scripted.backend Examples.management_answers
                  "openstack" Examples.refuses_update)) ≤ 1 + 2)%nat.
Proof.
  exact (spaces_commands_bounded Scripted.backend Examples.management_answers
           "openstack" [("management", Examples.management)] Examples.refuses_update
           eq_refl).
Defined.

Lemma spaces_created_only_when_absent_witness :
  py_str_in "management" [PStr "management"] = true ∧
  ∃ spec, ("management", spec) ∈ [("management", Examples.management)].
Proof.
  refine (proj2 (spaces_created_only_when_absent Scripted.backend
                   Examples.management_answers "openstack"
                   [("management", Examples.management)] [PStr "management"]
                   Examples.refuses_update (Scripted.World [None; None] []) _
                   eq_refl eq_refl
                   (Ev (set_space_subnets_call "openstack" "management"
                          [PStr "10.0.0.0/24"])
                       (Raised Live.called_process_error)) _)
                "management" [PStr "10.0.0.0/24"] eq_refl).
  right. left.
Defined.

Lemma spaces_run_returns_witness :
  ∃ res,
    fst (fst (EnsureJujuSpacesStep.run Scripted.backend Examples.management_answers
                "openstack" Examples.unreachable)) = inr res ∧
    result_type res ≠ SKIPPED.
Proof.
  apply (spaces_run_returns Scripted.backend Examples.management_answers "openstack"
           [("management", Examples.management)] Examples.unreachable eq_refl).
  intros name spec Hin. apply list_elem_of_singleton in Hin. injection Hin as -> ->.
  eexists. reflexivity.
Defined.

Lemma spaces_run_raises_witness :
  EnsureJujuSpacesStep.run Scripted.backend Examples.malformed_answers "openstack"
    (Scripted.World [Some (Scripted.spaces_text [])] []) =
    (inl (attribute_error Examples.malformed_space "get"), Scripted.World [] [],
     [Ev (spaces_query "openstack") (Output (Scripted.spaces_text []))] ++ []).
Proof.
  exact (spaces_run_raises Scripted.backend Examples.malformed_answers "openstack"
           [] [] "management" Examples.malformed_space []
           (Scripted.World [Some (Scripted.spaces_text [])] []) (Scripted.World [] [])
           (Scripted.World [] []) _ [] _ eq_refl eq_refl eq_refl eq_refl).
Defined.

Lemma pools_is_skip_without_client_witness :
  EnsureMetalLBIsolationStep.is_skip Scripted.backend Examples.public_only_answers None
    (Scripted.World [None] []) =
    (inr (None, mkResult FAILED (Some "K8S kubeconfig not found")),
     Scripted.World [] [], [Ev GetKubeClient (Raised Scripted.no_kubeconfig)]).
Proof.
  apply (proj1 (pools_is_skip_without_client Scripted.backend
                  Examples.public_only_answers None (Scripted.World [None] [])
                  (Scripted.World [] []) Scripted.no_kubeconfig eq_refl)).
  reflexivity.
Defined.

Lemma pools_is_skip_keeps_client_witness :
  ∃ k, Some KubeClient = Some k ∧
       get_kube_client Live.backend Examples.fresh = (inr k, Examples.fresh).
Proof.
  apply (pools_is_skip_keeps_client Live.backend Examples.public_only_answers None
           (Some KubeClient) (mkResult COMPLETED None) Examples.fresh Examples.fresh
           [Ev GetKubeClient Done] eq_refl).
  discriminate.
Defined.

Lemma pools_skipped_run_annotates_witness :
  EnsureMetalLBIsolationStep.run Live.backend "metallb-system" "metallb.io/address-pool"
    Examples.disabled_answers "openstack" (Some KubeClient) Examples.fresh =
    match EnsureMetalLBIsolationStep._annotate_traefik_services_via_juju Live.backend
            "metallb.io/address-pool" "openstack" Examples.fresh with
    | (inl e, w3, t3) => (inr (mkResult FAILED (Some (exn_str e))), w3, t3)
    | (inr _, w3, t3) => (inr (mkResult COMPLETED None), w3, t3)
    end.
Proof.
  exact (pools_skipped_run_annotates Live.backend "metallb-system"
           "metallb.io/address-pool" Examples.disabled_answers "openstack" None
           (Some KubeClient) (mkResult SKIPPED None) Examples.fresh Examples.fresh
           [Ev GetKubeClient Done] (Some KubeClient) Examples.fresh eq_refl eq_refl).
Defined.

Lemma pools_run_without_client_witness :
  ∃ msg,
    EnsureMetalLBIsolationStep.run Live.backend "metallb-system"
      "metallb.io/address-pool" Examples.public_only_answers "openstack" None
      Examples.fresh = (inr (mkResult FAILED (Some msg)), Examples.fresh, []).
Proof.
  apply (pools_run_without_client Live.backend "metallb-system" "metallb.io/address-pool"
           Examples.public_only_answers "openstack"
           (PStr "10.1.0.0/24, 10.1.1.0/24", PNone) Examples.fresh eq_refl).
  left. reflexivity.
Defined.

Lemma pools_advertisement_failure_witness :
  fst (fst (EnsureMetalLBIsolationStep.run Scripted.backend "metallb-system"
              "metallb.io/address-pool" Examples.public_only_answers "openstack"
              (Some KubeClient) Examples.refuses_advertisement)) =
    inr (mkResult FAILED
           (Some "Failed to apply L2Advertisement sunbeam-public-adv: 404 NotFound")).
Proof.
  apply (pools_advertisement_failure Scripted.backend "metallb-system"
           "metallb.io/address-pool" Examples.public_only_answers "openstack"
           (Some KubeClient) Public Examples.refuses_advertisement
           (Scripted.World [] []) _ _ Examples.public_advertisement Live.not_found
           eq_refl).
  repeat first [left | right].
Defined.

Lemma addresses_join_witness :
  EnsureMetalLBIsolationStep.addresses
    (PStr (py_join_comma ["10.1.0.0/24"; "10.1.1.0/24"])) =
    inr (map PStr ["10.1.0.0/24"; "10.1.1.0/24"]).
Proof.
  apply (addresses_join ["10.1.0.0/24"; "10.1.1.0/24"]).
  - repeat constructor.
  - repeat constructor; discriminate.
Defined.

Lemma addresses_blank_witness :
  EnsureMetalLBIsolationStep.addresses (PStr " , ,") = inr [].
Proof. exact (addresses_blank " , ," eq_refl). Defined.

Lemma import_keeps_other_keys_witness :
  snd (fst (NetworkIsolationImport.import_network_isolation_answers "network_isolation"
              (Some (inr Examples.opted_in)) Examples.shared_range_answers))
    !! "TerraformVarsK8SAddons"
  = Examples.shared_range_answers !! "TerraformVarsK8SAddons".
Proof.
  apply (import_keeps_other_keys "network_isolation" (Some (inr Examples.opted_in))
           Examples.shared_range_answers "TerraformVarsK8SAddons").
  discriminate.
Defined.

Lemma import_then_load_witness :
  fst (fst (NetworkIsolationImport.import_network_isolation_answers "network_isolation"
              (Some (inr Examples.opted_in)) ∅)) = inr Examples.opted_in_document ∧
  load_answers
    (snd (fst (NetworkIsolationImport.import_network_isolation_answers
                 "network_isolation" (Some (inr Examples.opted_in)) ∅)))
    "network_isolation"
  = PDict [("network_isolation", Examples.opted_in_document)].
Proof.
  exact (import_then_load "network_isolation" ∅ Examples.opted_in
           Examples.opted_in_document (PBool true) eq_refl eq_refl eq_refl).
Defined.

Lemma import_raises_on_non_mapping_witness :
  NetworkIsolationImport.import_network_isolation_answers "network_isolation"
    (Some (inr Examples.not_a_mapping)) ∅ =
    (inl (attribute_error (PList [PStr "management"]) "get"), ∅, []).
Proof.
  exact (import_raises_on_non_mapping "network_isolation" ∅ Examples.not_a_mapping
           (PList [PStr "management"]) eq_refl eq_refl).
Defined.

Lemma import_then_spaces_step_witness :
  spaces_enable_flag
    (snd (fst (NetworkIsolationImport.import_network_isolation_answers
                 EnsureJujuSpacesStep.NETWORK_ISOLATION_KEY
                 (Some (inr Examples.opted_in)) ∅)))
  = inr (PBool true).
Proof.
  exact (proj2 (import_then_spaces_step ∅ Examples.opted_in Examples.opted_in_document
                  (PBool true) eq_refl eq_refl eq_refl)).
Defined.

Lemma import_then_pools_step_witness :
  EnsureMetalLBIsolationStep._ranges_from_answers
    (snd (fst (NetworkIsolationImport.import_network_isolation_answers
                 EnsureMetalLBIsolationStep.NETWORK_ISOLATION_CONFIG_KEY
                 (Some (inr Examples.opted_in)) Examples.shared_range_answers)))
  = inr (PNone, PNone).
Proof.
  exact (proj2 (import_then_pools_step Examples.shared_range_answers Examples.opted_in
                  Examples.opted_in_document (PBool true)
                  [("loadbalancer", PStr "10.20.0.1-10.20.0.9")]
                  eq_refl eq_refl eq_refl eq_refl)).
Defined.
